(** * Electricity board record keeping (bot.py): model and verified properties

    The program keeps three SQLite tables (clients, readings, bills) and
    offers a text menu over them.  Each menu function of bot.py is embedded
    below as a function from the store and the operator's inputs to the new
    store and the lines it prints.

    Modelling conventions.
    - A Python [str] is a list of Unicode code points.
    - A table is the list of its rows in rowid order.  [AUTOINCREMENT] keys
      come from a per-table counter that never goes back.
    - A Python [float], a [np.float64] and the REAL columns of the tables
      (reading, units, amount) are binary64 values: the kernel's primitive
      floats, with IEEE arithmetic, infinities and nan.  SQLite keeps a nan
      as NULL, so a nan in a REAL column of the model is the NULL of the
      table.
    - Inputs that the program converts with [int] or [float] are given to the
      model already converted.
    - An exception that the program does not catch ends it with a traceback;
      the tables stay on disk, and the next start goes on from them. *)

From Stdlib Require Import String Ascii.
From Stdlib Require Import ZArith NArith QArith Bool Lia List.
From Stdlib Require Import Permutation Sorted.
From Stdlib Require Import FloatClass PrimFloat FloatOps SpecFloat.
Import ListNotations.

Local Open Scope Z_scope.

(** ** Python strings *)

Module PyStr.

Definition t : Type := list N.

(** Literals of the source are ASCII; [lit] reads one off a Rocq string. *)
Definition lit (s : string) : t := map N_of_ascii (list_ascii_of_string s).

Fixpoint eqb (a b : t) : bool :=
  match a, b with
  | [], [] => true
  | x :: a', y :: b' => N.eqb x y && eqb a' b'
  | _, _ => false
  end.

(** Code point order, the order of Python's [<] on [str] and of SQLite's
    BINARY collation on the UTF-8 encoding. *)
Fixpoint compare (a b : t) : comparison :=
  match a, b with
  | [], [] => Eq
  | [], _ :: _ => Lt
  | _ :: _, [] => Gt
  | x :: a', y :: b' =>
      match N.compare x y with
      | Eq => compare a' b'
      | c => c
      end
  end.

Definition leb (a b : t) : bool :=
  match compare a b with Gt => false | _ => true end.

Definition ltb (a b : t) : bool :=
  match compare a b with Lt => true | _ => false end.

(** [str.isspace] for one code point. *)
Definition isspace (c : N) : bool :=
  ((9 <=? c) && (c <=? 13) || (28 <=? c) && (c <=? 32)
   || (c =? 133) || (c =? 160) || (c =? 5760)
   || (8192 <=? c) && (c <=? 8202)
   || (c =? 8232) || (c =? 8233) || (c =? 8239) || (c =? 8287)
   || (c =? 12288))%N.

Fixpoint lstrip (s : t) : t :=
  match s with
  | c :: s' => if isspace c then lstrip s' else s
  | [] => []
  end.

(** [s.strip()] *)
Definition strip (s : t) : t := rev (lstrip (rev (lstrip s))).

(** First code points of the runs of ten decimal digits of Unicode 14
    (general category Nd); the mathematical digits at 120782 are five such
    runs. *)
Definition decimal_runs : list N :=
  [48; 1632; 1776; 1984; 2406; 2534; 2662; 2790; 2918; 3046; 3174; 3302;
   3430; 3558; 3664; 3792; 3872; 4160; 4240; 6112; 6160; 6470; 6608; 6784;
   6800; 6992; 7088; 7232; 7248; 42528; 43216; 43264; 43472; 43504; 43600;
   44016; 65296; 66720; 68912; 69734; 69872; 69942; 70096; 70384; 70736;
   70864; 71248; 71360; 71472; 71904; 72016; 72784; 73040; 73120; 92768;
   92864; 93008; 120782; 120792; 120802; 120812; 120822; 123200; 123632;
   125264; 130032]%N.

(** [str.isdecimal] for one code point: what [\d] matches in a [str]
    pattern compiled without [re.ASCII]. *)
Definition isdecimal (c : N) : bool :=
  existsb (fun b => (b <=? c) && (c <? b + 10))%N decimal_runs.

Definition is_ascii_digit (c : N) : bool := ((48 <=? c) && (c <=? 57))%N.

Definition is_ascii (c : N) : bool := (c <? 128)%N.

End PyStr.

Definition pystr : Type := PyStr.t.

(** ** Validation *)

(** [re.fullmatch(r"\d{n}", s)]: exactly [n] code points, each matched by
    [\d]. *)
Fixpoint fullmatch_digits (n : nat) (s : pystr) : bool :=
  match n, s with
  | O, [] => true
  | S n', c :: s' => PyStr.isdecimal c && fullmatch_digits n' s'
  | _, _ => false
  end.

Definition validate_phone (phone : pystr) : bool := fullmatch_digits 10 phone.

(** ** Numbers *)

Definition is_nan (x : float) : bool := negb (PrimFloat.eqb x x).

Definition two52 : float := 4503599627370496%float.

(** [np.rint]: the nearest integer, a tie going to the even one, with the
    sign of the argument.  Below 2^52 in size, adding 2^52 and taking it
    away again rounds to an integer; from 2^52 on every value is one. *)
Definition rint (x : float) : float :=
  let a := PrimFloat.abs x in
  if PrimFloat.ltb a two52 then
    let r := ((a + two52) - two52)%float in
    if PrimFloat.ltb x 0%float then (- r)%float
    else match PrimFloat.classify x with
         | NZero => (- r)%float
         | _ => r
         end
  else x.

(** The factor of [np.round]: 1, 10, 100, ... *)
Fixpoint power_of_ten (n : nat) : float :=
  match n with
  | O => 1%float
  | S k => (power_of_ten k * 10)%float
  end.

(** [np.round(x, decimals)] for [decimals >= 0]: multiply by the power of
    ten, [rint], divide by it, each step in binary64. *)
Definition np_round (x : float) (decimals : nat) : float :=
  let f := power_of_ten decimals in
  (rint (x * f) / f)%float.

(** What SQLite keeps of a float bound to a REAL column: NULL for a nan,
    0.0 for either zero, the value itself otherwise. *)
Definition sqlite_real (x : float) : float :=
  if is_nan x then nan
  else if PrimFloat.eqb x 0%float then 0%float
  else x.

(** The sum that numpy makes of a block of an array: in order when it has
    fewer than 8 elements; otherwise with 8 running sums over the rows of
    8, added up in pairs, and what is left over added in order; beyond 128
    elements the block is cut in two. *)
Fixpoint add_each (r b : list float) : list float :=
  match r, b with
  | x :: r', y :: b' => (x + y)%float :: add_each r' b'
  | _, _ => r
  end.

Fixpoint unrolled_rows (fuel : nat) (r l : list float)
  : list float * list float :=
  match fuel with
  | O => (r, l)
  | S fuel' =>
      if (8 <=? length l)%nat
      then unrolled_rows fuel' (add_each r (firstn 8 l)) (skipn 8 l)
      else (r, l)
  end.

Definition add_in_pairs (r : list float) : float :=
  match r with
  | [r0; r1; r2; r3; r4; r5; r6; r7] =>
      (((r0 + r1) + (r2 + r3)) + ((r4 + r5) + (r6 + r7)))%float
  | _ => fold_left PrimFloat.add r 0%float
  end.

Fixpoint pairwise_sum (fuel : nat) (l : list float) : float :=
  let n := length l in
  if (n <? 8)%nat then fold_left PrimFloat.add l 0%float
  else if (n <=? 128)%nat then
    let (r, rest) := unrolled_rows n (firstn 8 l) (skipn 8 l) in
    fold_left PrimFloat.add rest (add_in_pairs r)
  else
    match fuel with
    | O => 0%float
    | S fuel' =>
        let n2 := (n / 2 - (n / 2) mod 8)%nat in
        (pairwise_sum fuel' (firstn n2 l)
         + pairwise_sum fuel' (skipn n2 l))%float
    end.

Definition fillna (fill x : float) : float := if is_nan x then fill else x.

(** [np.sum] of a column of a frame, the [sum] of the Series: the nan
    (NULL) entries count as 0. *)
Definition np_sum (l : list float) : float :=
  (0 + pairwise_sum (length l) (map (fillna 0) l))%float.

Fixpoint float_of_nat (n : nat) : float :=
  match n with
  | O => 0%float
  | S k => (float_of_nat k + 1)%float
  end.

(** [np.mean] of a column, the [mean] of the Series: the sum over the
    number of entries that are not nan, nan when there is none. *)
Definition np_mean (l : list float) : float :=
  let count := length (filter (fun x => negb (is_nan x)) l) in
  match count with
  | O => nan
  | _ => (np_sum l / float_of_nat count)%float
  end.

Definition fmax (a b : float) : float := if PrimFloat.ltb a b then b else a.

(** [np.max] of a column, the [max] of the Series: the greatest entry that
    is not nan, nan when there is none. *)
Definition np_max (l : list float) : float :=
  match filter (fun x => negb (is_nan x)) l with
  | [] => nan
  | _ => fold_left fmax (map (fillna neg_infinity) l) neg_infinity
  end.

(** The sum pandas makes of the rows of one group: Kahan's compensated
    sum over the entries that are not nan. *)
Fixpoint kahan (sumx compensation : float) (l : list float) : float :=
  match l with
  | [] => sumx
  | val :: l' =>
      if is_nan val then kahan sumx compensation l'
      else
        let y := (val - compensation)%float in
        let t := (sumx + y)%float in
        let c := (t - sumx - y)%float in
        kahan t (if is_nan c then 0%float else c) l'
  end.

Definition group_sum (l : list float) : float := kahan 0%float 0%float l.

(** The [:.2f] of an f-string: the exact value of the float rounded to
    hundredths, a tie going to the even one. *)
Definition div_half_even (num den : Z) : Z :=
  let q := num / den in
  match Z.compare (2 * (num mod den)) den with
  | Lt => q
  | Gt => q + 1
  | Eq => if Z.even q then q else q + 1
  end.

Definition hundredths (m : positive) (e : Z) : Z :=
  if 0 <=? e then Z.pos m * 2 ^ e * 100
  else div_half_even (Z.pos m * 100) (2 ^ (- e)).

Fixpoint decimal (fuel : nat) (n : Z) (acc : list N) : list N :=
  let acc' := Z.to_N (48 + n mod 10) :: acc in
  match fuel with
  | O => acc'
  | S fuel' => if n <? 10 then acc' else decimal fuel' (n / 10) acc'
  end.

Definition format_2f (x : float) : list N :=
  let sign (s : bool) := if s then PyStr.lit "-" else [] in
  match Prim2SF x with
  | S754_nan => PyStr.lit "nan"
  | S754_infinity s => sign s ++ PyStr.lit "inf"
  | S754_zero s => sign s ++ PyStr.lit "0.00"
  | S754_finite s m e =>
      let h := hundredths m e in
      sign s ++ decimal (Z.to_nat (Z.log2 (h / 100))) (h / 100) []
      ++ PyStr.lit "."
      ++ [Z.to_N (48 + (h mod 100) / 10); Z.to_N (48 + h mod 10)]
  end.

(** ** A stable sort, for [ORDER BY]

    Rows of equal key stay in the order they had: SQLite's sorter merges
    runs that way. *)

Section StableSort.

Variable A : Type.
Variable leb : A -> A -> bool.

Fixpoint insert_sorted (x : A) (l : list A) : list A :=
  match l with
  | [] => [x]
  | y :: l' => if leb x y then x :: l else y :: insert_sorted x l'
  end.

Fixpoint stable_sort (l : list A) : list A :=
  match l with
  | [] => []
  | x :: l' => insert_sorted x (stable_sort l')
  end.

End StableSort.

Arguments insert_sorted {A} leb x l.
Arguments stable_sort {A} leb l.

(** ** The store *)

(** What a column of INTEGER affinity holds after SQLite has converted the
    text bound to it: an integer, a number that is no integer, or text that
    is no number. *)
Inductive sqlval : Type :=
| SqlInt (z : Z)
| SqlReal (q : Q)
| SqlText (s : pystr).

(** SQLite's [=] between two such values. *)
Definition sql_eqb (a b : sqlval) : bool :=
  match a, b with
  | SqlInt x, SqlInt y => Z.eqb x y
  | SqlInt x, SqlReal q | SqlReal q, SqlInt x => Qeq_bool (inject_Z x) q
  | SqlReal p, SqlReal q => Qeq_bool p q
  | SqlText s, SqlText t => PyStr.eqb s t
  | _, _ => false
  end.

Record client : Type := mkClient {
  c_id : Z;
  c_name : pystr;
  c_meter_no : pystr;
  c_address : pystr;
  c_phone : pystr
}.

Record reading : Type := mkReading {
  r_id : Z;
  r_client_id : sqlval;
  r_date : pystr;
  r_reading : float
}.

Record bill : Type := mkBill {
  b_id : Z;
  b_client_id : sqlval;
  b_start_date : pystr;
  b_end_date : pystr;
  b_units : float;
  b_amount : float;
  b_status : pystr
}.

Record db : Type := mkDb {
  clients : list client;
  readings : list reading;
  bills : list bill;
  clients_seq : Z;
  readings_seq : Z;
  bills_seq : Z
}.

(** The store that [create_tables] leaves on a fresh file. *)
Definition create_tables : db := mkDb [] [] [] 0 0 0.

(** Rows of the reports. *)
Record reading_row : Type := mkReadingRow {
  rr_id : Z;
  rr_name : pystr;
  rr_date : pystr;
  rr_reading : float
}.

Record bill_row : Type := mkBillRow {
  br_id : Z;
  br_name : pystr;
  br_start_date : pystr;
  br_end_date : pystr;
  br_units : float;
  br_amount : float;
  br_status : pystr
}.

Record analysis_row : Type := mkAnalysisRow {
  ar_name : pystr;
  ar_units : float;
  ar_amount : float
}.

Record bill_summary : Type := mkSummary {
  s_client_id : sqlval;
  s_units : float;
  s_rate : float;
  s_amount : float;
  s_status : pystr
}.

Record analysis : Type := mkAnalysis {
  total_units : float;
  total_amount : float;
  avg_units : float;
  avg_units_2f : pystr;
  max_units : float;
  top_list : list (pystr * float)
}.

(** The exceptions that the program lets through. *)
Inductive exception : Type :=
| OverflowError
| TypeError.

(** What the program prints, one constructor per report or notice, and the
    traceback of an exception that ends it. *)
Inductive message : Type :=
| InvalidPhoneNumber
| ClientAdded
| MeterNumberExists
| NoClientsFound
| ClientList (rows : list client)
| InvalidNumericId
| NoClientWithThatId
| ClientRemoved
| DeletionCancelled
| ReadingAdded
| NoReadingsFound
| MeterReadings (rows : list reading_row)
| NotEnoughReadings
| BillGenerated (summary : bill_summary)
| NoBillsFound
| BillDetails (rows : list bill_row)
| NoBillingData
| ConsumptionAnalysis (report : analysis)
| Traceback (raised : exception).

(** ** Client functions *)

(** The loop of [add_client] that asks for the phone number: [inputs] are
    the lines the operator types at the prompt, one per round.  It yields
    the notices printed and the first line that, stripped, passes
    [validate_phone]; [None] when no line does, and the loop is still
    asking. *)
Fixpoint prompt_phone (inputs : list pystr) : list message * option pystr :=
  match inputs with
  | [] => ([], None)
  | line :: rest =>
      let phone := PyStr.strip line in
      if validate_phone phone then ([], Some phone)
      else let (out, r) := prompt_phone rest in (InvalidPhoneNumber :: out, r)
  end.

(** [INSERT INTO clients(name, meter_no, address, phone)]: [None] is the
    [IntegrityError] of the UNIQUE constraint on [meter_no]. *)
Definition insert_client (st : db) (name meter address phone : pystr)
  : option db :=
  if existsb (fun c => PyStr.eqb (c_meter_no c) meter) (clients st)
  then None
  else
    let id := clients_seq st + 1 in
    Some (mkDb (clients st ++ [mkClient id name meter address phone])
               (readings st) (bills st)
               id (readings_seq st) (bills_seq st)).

(** [add_client]; [None] when the phone prompt never gets a valid number. *)
Definition add_client (st : db) (name meter address : pystr)
  (phones : list pystr) : option (db * list message) :=
  let name := PyStr.strip name in
  let meter := PyStr.strip meter in
  let address := PyStr.strip address in
  match prompt_phone phones with
  | (_, None) => None
  | (out, Some phone) =>
      match insert_client st name meter address phone with
      | Some st' => Some (st', out ++ [ClientAdded])
      | None => Some (st, out ++ [MeterNumberExists])
      end
  end.

Definition view_clients (st : db) : list message :=
  match clients st with
  | [] => [NoClientsFound]
  | rows => [ClientList rows]
  end.

(** [SELECT * FROM clients WHERE id=?] followed by [fetchone]. *)
Definition select_client (st : db) (client_id : Z) : option client :=
  find (fun c => Z.eqb (c_id c) client_id) (clients st).

(** [DELETE FROM clients WHERE id=?] *)
Definition delete_client (st : db) (client_id : Z) : db :=
  mkDb (filter (fun c => negb (Z.eqb (c_id c) client_id)) (clients st))
       (readings st) (bills st)
       (clients_seq st) (readings_seq st) (bills_seq st).

(** [confirm.lower() == 'y']: only [y] and [Y] lower to [y]. *)
Definition confirmed (confirm : pystr) : bool :=
  PyStr.eqb confirm (PyStr.lit "y") || PyStr.eqb confirm (PyStr.lit "Y").

(** The integers that sqlite3 binds to a statement: the signed 64-bit
    ones.  For any other it raises [OverflowError]. *)
Definition sqlite_integer (z : Z) : bool :=
  (- 2 ^ 63 <=? z) && (z <? 2 ^ 63).

(** [remove_client]: [id_input] is the result of [int(input(...))], [None]
    for its [ValueError]; [confirm] is the answer to the question, asked
    only when the row is found.  The [OverflowError] of an id that is no
    64-bit integer is raised where the id is bound to the SELECT and is
    not caught.  No row has such an id, so the model makes the test where
    the SELECT has found no row. *)
Definition remove_client (st : db) (id_input : option Z) (confirm : pystr)
  : db * list message :=
  let shown := view_clients st in
  match id_input with
  | None => (st, shown ++ [InvalidNumericId])
  | Some client_id =>
      match select_client st client_id with
      | None =>
          if sqlite_integer client_id
          then (st, shown ++ [NoClientWithThatId])
          else (st, shown ++ [Traceback OverflowError])
      | Some _ =>
          if confirmed confirm
          then (delete_client st client_id, shown ++ [ClientRemoved])
          else (st, shown ++ [DeletionCancelled])
      end
  end.

(** ** Reading functions *)

(** [add_reading]: [client_id] is the line typed, as the INTEGER column
    keeps it; [reading] is the result of [float(input(...))], which may be
    an infinity or nan. *)
Definition add_reading (st : db) (client_id : sqlval) (date : pystr)
  (reading : float) : db * list message :=
  let id := readings_seq st + 1 in
  (mkDb (clients st)
        (readings st
         ++ [mkReading id client_id date (sqlite_real reading)])
        (bills st)
        (clients_seq st) id (bills_seq st),
   view_clients st ++ [ReadingAdded]).

(** [FROM t JOIN clients c ON t.client_id = c.id]: every pair of a row of
    [t] and a client with that id, the rows of [t] in their order. *)
Definition join_clients {A B : Type} (key : A -> sqlval)
  (row : A -> client -> B) (cs : list client) (l : list A) : list B :=
  flat_map
    (fun a =>
       map (row a)
           (filter (fun c => sql_eqb (key a) (SqlInt (c_id c))) cs))
    l.

Definition date_leb (a b : reading_row) : bool :=
  PyStr.leb (rr_date a) (rr_date b).

(** The query of [view_readings]. *)
Definition select_readings_report (st : db) : list reading_row :=
  stable_sort date_leb
    (join_clients r_client_id
       (fun r c => mkReadingRow (r_id r) (c_name c) (r_date r) (r_reading r))
       (clients st) (readings st)).

Definition view_readings (st : db) : list message :=
  match select_readings_report st with
  | [] => [NoReadingsFound]
  | rows => [MeterReadings rows]
  end.

(** ** Billing functions *)

(** [WHERE client_id=? AND date BETWEEN ? AND ?] *)
Definition in_period (client_id : sqlval) (start end_ : pystr) (r : reading)
  : bool :=
  sql_eqb (r_client_id r) client_id
  && (PyStr.leb start (r_date r) && PyStr.leb (r_date r) end_).

(** The query of [generate_bill], down to the list [readings]. *)
Definition select_readings (st : db) (client_id : sqlval)
  (start end_ : pystr) : list float :=
  map r_reading
    (stable_sort (fun a b => PyStr.leb (r_date a) (r_date b))
       (filter (in_period client_id start end_) (readings st))).

Definition rate : float := 5%float.

Definition unpaid : pystr := PyStr.lit "Unpaid".

(** [generate_bill].  A reading that is NULL comes back as [None], and
    the subtraction of the first from the last raises [TypeError] when
    either is: the exception is not caught and no bill is stored. *)
Definition generate_bill (st : db) (client_id : sqlval) (start end_ : pystr)
  : db * list message :=
  let shown := view_clients st in
  let rs := select_readings st client_id start end_ in
  if (length rs <? 2)%nat then (st, shown ++ [NotEnoughReadings])
  else if is_nan (hd nan rs) || is_nan (last rs nan)
  then (st, shown ++ [Traceback TypeError])
  else
    let units := np_round (last rs nan - hd nan rs)%float 2 in
    let amount := np_round (units * rate)%float 2 in
    let id := bills_seq st + 1 in
    (mkDb (clients st) (readings st)
          (bills st
           ++ [mkBill id client_id start end_ (sqlite_real units)
                 (sqlite_real amount) unpaid])
          (clients_seq st) (readings_seq st) id,
     shown ++ [BillGenerated (mkSummary client_id units rate amount unpaid)]).

(** The query of [view_bills]. *)
Definition select_bills_report (st : db) : list bill_row :=
  join_clients b_client_id
    (fun b c =>
       mkBillRow (b_id b) (c_name c) (b_start_date b) (b_end_date b)
                 (b_units b) (b_amount b) (b_status b))
    (clients st) (bills st).

Definition view_bills (st : db) : list message :=
  match select_bills_report st with
  | [] => [NoBillsFound]
  | rows => [BillDetails rows]
  end.

(** ** Analysis *)

(** The query of [show_analysis]: the frame [df_bills]. *)
Definition df_bills (st : db) : list analysis_row :=
  join_clients b_client_id
    (fun b c => mkAnalysisRow (c_name c) (b_units b) (b_amount b))
    (clients st) (bills st).

(** The keys of [groupby]: the distinct names, ascending. *)
Fixpoint insert_key (k : pystr) (keys : list pystr) : list pystr :=
  match keys with
  | [] => [k]
  | k' :: rest =>
      match PyStr.compare k k' with
      | Lt => k :: keys
      | Eq => keys
      | Gt => k' :: insert_key k rest
      end
  end.

Definition group_keys (names : list pystr) : list pystr :=
  fold_right insert_key [] names.

Definition units_of (name : pystr) (df : list analysis_row) : list float :=
  map ar_units (filter (fun r => PyStr.eqb (ar_name r) name) df).

(** [df.groupby("name")["units"].sum()] *)
Definition groupby_name_units_sum (df : list analysis_row)
  : list (pystr * float) :=
  map (fun k => (k, group_sum (units_of k df))) (group_keys (map ar_name df)).

(** Whether [a] may stand before [b] in a descending order: [b] is no
    greater, and a nan stands last. *)
Definition ranks_before (a b : float) : bool :=
  is_nan b || (negb (is_nan a) && PrimFloat.leb b a).

(** [.sort_values(ascending=False)]: [ranked] is a result of the call on
    the series [s] when it holds the entries of [s] in descending order of
    value.  The default [kind] is numpy's quicksort, which is not stable:
    in what order entries of equal value come out is its own affair, so
    the result is specified and not computed. *)
Definition sort_values_desc (s ranked : list (pystr * float)) : Prop :=
  Permutation s ranked /\
  StronglySorted (fun a b => ranks_before (snd a) (snd b) = true) ranked.

(** [show_analysis]: [ranked] is the series that [sort_values] returns for
    the grouped sums; [.head(5)] and the [zip] of index and values make the
    top list from it. *)
Definition show_analysis (st : db) (ranked : list (pystr * float))
  : list message :=
  match df_bills st with
  | [] => [NoBillingData]
  | r :: rest =>
      let df := r :: rest in
      let units := map ar_units df in
      [ConsumptionAnalysis
         (mkAnalysis (np_sum units)
                     (np_sum (map ar_amount df))
                     (np_mean units)
                     (format_2f (np_mean units))
                     (np_max units)
                     (firstn 5 ranked))]
  end.

(** ** The menu *)

(** One selection of [main_menu] with the inputs it reads. *)
Inductive command : Type :=
| AddClient (name meter address : pystr) (phones : list pystr)
| ViewClients
| RemoveClient (id_input : option Z) (confirm : pystr)
| AddReading (client_id : sqlval) (date : pystr) (reading : float)
| ViewReadings
| GenerateBill (client_id : sqlval) (start end_ : pystr)
| ViewBills
| ShowAnalysis (ranked : list (pystr * float)).

(** The store after a selection and what it printed; [None] when the
    selection never ends, the phone prompt asking on.  A selection that
    ends in a traceback leaves the store as it is. *)
Definition run (st : db) (cmd : command) : option (db * list message) :=
  match cmd with
  | AddClient name meter address phones =>
      add_client st name meter address phones
  | ViewClients => Some (st, view_clients st)
  | RemoveClient id_input confirm => Some (remove_client st id_input confirm)
  | AddReading client_id date reading =>
      Some (add_reading st client_id date reading)
  | ViewReadings => Some (st, view_readings st)
  | GenerateBill client_id start end_ =>
      Some (generate_bill st client_id start end_)
  | ViewBills => Some (st, view_bills st)
  | ShowAnalysis ranked => Some (st, show_analysis st ranked)
  end.

(** The stores the menu can reach from a fresh file. *)
Inductive reachable : db -> Prop :=
| reach_init : reachable create_tables
| reach_step : forall st cmd st' out,
    reachable st -> run st cmd = Some (st', out) -> reachable st'.

(** The store after a list of selections, each of which comes back. *)
Fixpoint run_all (st : db) (cmds : list command) : option db :=
  match cmds with
  | [] => Some st
  | cmd :: rest =>
      match run st cmd with
      | Some (st', _) => run_all st' rest
      | None => None
      end
  end.

(** ** Sample sessions *)

Definition L : string -> pystr := PyStr.lit.

(** Ten Devanagari digits, zero to nine. *)
Definition devanagari_phone : pystr :=
  [2406; 2407; 2408; 2409; 2410; 2411; 2412; 2413; 2414; 2415]%N.

(** A client, two readings of 100 and 135 in January, the bill. *)
Definition january_session : list command :=
  [AddClient (L "Asha") (L "M-100") (L "12 Lake Road")
     [L "12345"; L " 9876543210 "];
   AddReading (SqlInt 1) (L "2024-01-01") 100%float;
   AddReading (SqlInt 1) (L "2024-01-31") 135%float;
   GenerateBill (SqlInt 1) (L "2024-01-01") (L "2024-01-31")].

Definition after (cmds : list command) : db :=
  match run_all create_tables cmds with
  | Some st => st
  | None => create_tables
  end.

Definition january_db : db := Eval vm_compute in after january_session.

(** A reading entered for client id 7, which was never registered. *)
Definition stray_reading_db : db :=
  Eval vm_compute in
    after [AddClient (L "Asha") (L "M-100") (L "12 Lake Road")
             [L "9876543210"];
           AddReading (SqlInt 7) (L "2024-01-01") 42%float].

(** Two clients and three bills: Asha 10, Ravi 20, Asha 5. *)
Definition three_bills_session : list command :=
  [AddClient (L "Asha") (L "M-100") (L "12 Lake Road") [L "9876543210"];
   AddClient (L "Ravi") (L "M-200") (L "3 Hill Street") [L "9123456780"];
   AddReading (SqlInt 1) (L "2024-01-01") 100%float;
   AddReading (SqlInt 1) (L "2024-01-31") 110%float;
   AddReading (SqlInt 1) (L "2024-02-29") 115%float;
   AddReading (SqlInt 2) (L "2024-01-01") 50%float;
   AddReading (SqlInt 2) (L "2024-01-31") 70%float;
   GenerateBill (SqlInt 1) (L "2024-01-01") (L "2024-01-31");
   GenerateBill (SqlInt 2) (L "2024-01-01") (L "2024-01-31");
   GenerateBill (SqlInt 1) (L "2024-01-31") (L "2024-02-29")].

Definition three_bills_db : db := Eval vm_compute in after three_bills_session.

(** The same, and then Ravi is removed. *)
Definition ravi_removed_db : db :=
  Eval vm_compute in
    after (three_bills_session ++ [RemoveClient (Some 2) (L "y")]).


(** Whether the client id of a bill is the id of a client. *)
Definition has_client (st : db) (b : bill) : bool :=
  existsb (fun c => sql_eqb (b_client_id b) (SqlInt (c_id c))) (clients st).

(** The bills that the join with the client table keeps. *)
Definition billed (st : db) : list bill := filter (has_client st) (bills st).

(** The order of the group keys: strictly ascending by code points. *)
Definition name_lt (a b : pystr) : Prop := PyStr.compare a b = Lt.

(** A string that is empty or begins with a code point that is no
    whitespace; [trimmed] asks it of both ends. *)
Definition no_leading_space (s : pystr) : Prop :=
  match s with
  | [] => True
  | c :: _ => PyStr.isspace c = false
  end.

Definition trimmed (s : pystr) : Prop :=
  no_leading_space s /\ no_leading_space (rev s).


(** * Properties *)

(** ** Strings *)

Lemma pystr_eqb_eq (a b : pystr) : PyStr.eqb a b = true <-> a = b.
Proof.
  revert b; induction a as [|x a IH]; intros [|y b]; simpl;
    try (split; (reflexivity || discriminate)).
  rewrite andb_true_iff, N.eqb_eq, IH.
  split; [intros [-> ->]; reflexivity | intros H; inversion H; auto].
Qed.

Lemma pystr_eqb_refl (a : pystr) : PyStr.eqb a a = true.
Proof. apply pystr_eqb_eq; reflexivity. Qed.

Lemma pystr_compare_eq (a b : pystr) : PyStr.compare a b = Eq <-> a = b.
Proof.
  revert b; induction a as [|x a IH]; intros [|y b]; simpl;
    try (split; (reflexivity || discriminate)).
  destruct (N.compare_spec x y) as [->|Hlt|Hgt].
  - rewrite IH; split; [intros ->; reflexivity | intros H; inversion H; auto].
  - split; [discriminate | intros H; inversion H; lia].
  - split; [discriminate | intros H; inversion H; lia].
Qed.

Lemma pystr_compare_antisym (a b : pystr) :
  PyStr.compare b a = CompOpp (PyStr.compare a b).
Proof.
  revert b; induction a as [|x a IH]; intros [|y b]; simpl; try reflexivity.
  rewrite (N.compare_antisym x y).
  destruct (N.compare x y); simpl; auto.
Qed.

Lemma pystr_compare_lt_trans (a b c : pystr) :
  PyStr.compare a b = Lt -> PyStr.compare b c = Lt -> PyStr.compare a c = Lt.
Proof.
  revert b c; induction a as [|x a IH]; intros [|y b] [|z c]; simpl;
    try (intros; (reflexivity || discriminate)).
  destruct (N.compare_spec x y) as [->|Hxy|Hxy]; try discriminate.
  - destruct (N.compare z y) eqn:E; destruct (N.compare y z) eqn:E';
      try discriminate; intros; eauto.
  - intros _.
    destruct (N.compare_spec y z) as [->|Hyz|Hyz]; try discriminate; intros _.
    + apply N.compare_lt_iff in Hxy; rewrite Hxy; reflexivity.
    + assert (H : (x < z)%N) by lia.
      apply N.compare_lt_iff in H; rewrite H; reflexivity.
Qed.

Lemma pystr_leb_total (a b : pystr) :
  PyStr.leb a b = true \/ PyStr.leb b a = true.
Proof.
  unfold PyStr.leb; rewrite (pystr_compare_antisym a b).
  destruct (PyStr.compare a b); simpl; auto.
Qed.

Lemma pystr_leb_trans (a b c : pystr) :
  PyStr.leb a b = true -> PyStr.leb b c = true -> PyStr.leb a c = true.
Proof.
  unfold PyStr.leb.
  destruct (PyStr.compare a b) eqn:Hab; try discriminate;
    destruct (PyStr.compare b c) eqn:Hbc; try discriminate; intros _ _.
  - apply pystr_compare_eq in Hab, Hbc; subst.
    rewrite (proj2 (pystr_compare_eq c c) eq_refl); reflexivity.
  - apply pystr_compare_eq in Hab; subst; rewrite Hbc; reflexivity.
  - apply pystr_compare_eq in Hbc; subst; rewrite Hab; reflexivity.
  - rewrite (pystr_compare_lt_trans _ _ _ Hab Hbc); reflexivity.
Qed.

(** ** The stable sort *)

Section StableSortFacts.

Variable A : Type.
Variable leb : A -> A -> bool.

Lemma insert_sorted_perm (x : A) (l : list A) :
  Permutation (x :: l) (insert_sorted leb x l).
Proof.
  induction l as [|y l IH]; simpl; auto.
  destruct (leb x y); auto.
  rewrite perm_swap; auto.
Qed.

Lemma stable_sort_perm (l : list A) : Permutation l (stable_sort leb l).
Proof.
  induction l as [|x l IH]; simpl; auto.
  rewrite <- insert_sorted_perm; auto.
Qed.


(** Elements that [p] picks keep their order, provided any two of them
    are in order either way round. *)
Lemma insert_sorted_filter (p : A -> bool) (x : A) (l : list A) :
  (forall a b, p a = true -> p b = true -> leb a b = true) ->
  filter p (insert_sorted leb x l) = filter p (x :: l).
Proof.
  intros Hp; induction l as [|y l IH]; auto.
  simpl insert_sorted.
  destruct (leb x y) eqn:Hxy; auto.
  simpl in *; rewrite IH.
  destruct (p x) eqn:Hx, (p y) eqn:Hy; auto.
  rewrite (Hp x y Hx Hy) in Hxy; discriminate.
Qed.

Lemma stable_sort_stable (p : A -> bool) (l : list A) :
  (forall a b, p a = true -> p b = true -> leb a b = true) ->
  filter p (stable_sort leb l) = filter p l.
Proof.
  intros Hp; induction l as [|x l IH]; auto.
  simpl stable_sort; rewrite insert_sorted_filter by assumption.
  simpl; rewrite IH; reflexivity.
Qed.

Hypothesis leb_total : forall a b, leb a b = true \/ leb b a = true.
Hypothesis leb_trans :
  forall a b c, leb a b = true -> leb b c = true -> leb a c = true.

Let le (a b : A) : Prop := leb a b = true.

Lemma insert_sorted_sorted (x : A) (l : list A) :
  StronglySorted le l -> StronglySorted le (insert_sorted leb x l).
Proof.
  induction 1 as [|y l Hs IH Hy]; simpl.
  - repeat constructor.
  - destruct (leb x y) eqn:Hxy.
    + constructor; [constructor; assumption|].
      constructor; [exact Hxy|].
      eapply Forall_impl; [|exact Hy].
      intros z Hz; exact (leb_trans x y z Hxy Hz).
    + constructor; [exact IH|].
      eapply Permutation_Forall; [apply insert_sorted_perm|].
      constructor; [|exact Hy].
      destruct (leb_total x y) as [H|H]; [congruence | exact H].
Qed.

Lemma stable_sort_sorted (l : list A) :
  StronglySorted le (stable_sort leb l).
Proof.
  induction l as [|x l IH]; simpl;
    [constructor | apply insert_sorted_sorted, IH].
Qed.

End StableSortFacts.

(** ** Phone validation *)

Lemma fullmatch_digits_spec (n : nat) (s : pystr) :
  fullmatch_digits n s = true <->
  length s = n /\ Forall (fun c => PyStr.isdecimal c = true) s.
Proof.
  revert s; induction n as [|n IH]; intros [|c s]; simpl.
  - split; auto.
  - split; [discriminate | intros [H _]; discriminate].
  - split; [discriminate | intros [H _]; discriminate].
  - rewrite andb_true_iff, IH; split.
    + intros [Hc [Hl Hs]]; split; [congruence | constructor; assumption].
    + intros [Hl Hs]; inversion Hs; subst; repeat split; auto.
Qed.

Lemma no_run_below (c : N) (runs : list N) :
  Forall (fun b => (c < b)%N) runs ->
  existsb (fun b => (b <=? c) && (c <? b + 10))%N runs = false.
Proof.
  induction 1 as [|b runs Hb _ IH]; simpl; auto.
  rewrite IH, orb_false_r.
  apply andb_false_iff; left; apply N.leb_gt; exact Hb.
Qed.

(** On ASCII, [\d] is [0-9]. *)
Lemma isdecimal_ascii (c : N) :
  PyStr.is_ascii c = true -> PyStr.isdecimal c = PyStr.is_ascii_digit c.
Proof.
  unfold PyStr.is_ascii, PyStr.isdecimal, PyStr.is_ascii_digit; intros Hc.
  apply N.ltb_lt in Hc.
  unfold PyStr.decimal_runs.
  match goal with
  | |- existsb ?f (?b :: ?l) = _ =>
      change (existsb f (b :: l)) with (f b || existsb f l)
  end.
  rewrite no_run_below.
  - rewrite orb_false_r; f_equal.
    destruct (N.ltb_spec c (48 + 10)), (N.leb_spec c 57); auto; lia.
  - repeat (constructor; [lia|]); constructor.
Qed.

Lemma validate_phone_spec (phone : pystr) :
  validate_phone phone = true <->
  length phone = 10%nat /\ Forall (fun c => PyStr.isdecimal c = true) phone.
Proof. apply fullmatch_digits_spec. Qed.

Lemma validate_phone_ascii (phone : pystr) :
  Forall (fun c => PyStr.is_ascii c = true) phone ->
  (validate_phone phone = true <->
   length phone = 10%nat /\
   Forall (fun c => PyStr.is_ascii_digit c = true) phone).
Proof.
  intros Ha; rewrite validate_phone_spec.
  assert (H : Forall (fun c => PyStr.isdecimal c = true) phone <->
              Forall (fun c => PyStr.is_ascii_digit c = true) phone).
  { induction Ha as [|c s Hc _ IH]; [split; constructor|].
    split; intros H; inversion H; subst; constructor;
      try (apply IH; assumption);
      rewrite isdecimal_ascii in * by assumption; assumption. }
  rewrite H; reflexivity.
Qed.

Lemma prompt_phone_some (inputs : list pystr) (out : list message)
  (phone : pystr) :
  prompt_phone inputs = (out, Some phone) ->
  exists rejected line rest,
    inputs = rejected ++ line :: rest /\
    Forall (fun l => validate_phone (PyStr.strip l) = false) rejected /\
    phone = PyStr.strip line /\
    validate_phone phone = true /\
    out = repeat InvalidPhoneNumber (length rejected).
Proof.
  revert out; induction inputs as [|l inputs IH]; simpl; intros out H.
  - discriminate.
  - destruct (validate_phone (PyStr.strip l)) eqn:Hv.
    + inversion H; subst.
      exists [], l, inputs; repeat split; auto.
    + destruct (prompt_phone inputs) as [out' r] eqn:Hp.
      inversion H; subst.
      destruct (IH out' eq_refl) as (rej & line & rest & -> & Hrej & -> & Hok & ->).
      exists (l :: rej), line, rest; repeat split; auto.
Qed.

(** ** Registration *)

Lemma insert_client_some (st st' : db) (name meter address phone : pystr) :
  insert_client st name meter address phone = Some st' ->
  clients st' =
    clients st ++ [mkClient (clients_seq st + 1) name meter address phone] /\
  readings st' = readings st /\ bills st' = bills st /\
  clients_seq st' = clients_seq st + 1 /\
  readings_seq st' = readings_seq st /\ bills_seq st' = bills_seq st /\
  Forall (fun c => c_meter_no c <> meter) (clients st).
Proof.
  unfold insert_client.
  destruct (existsb _ (clients st)) eqn:E; [discriminate|].
  intros H; inversion H; subst; simpl; repeat split; auto.
  apply Forall_forall; intros c Hc Hm.
  assert (Ht : existsb (fun c => PyStr.eqb (c_meter_no c) meter) (clients st)
               = true).
  { apply existsb_exists; exists c; split; [exact Hc|].
    apply pystr_eqb_eq; exact Hm. }
  congruence.
Qed.


(** What a call of [add_client] that comes back has done. *)
Lemma add_client_inv (st st' : db) (name meter address : pystr)
  (phones : list pystr) (out : list message) :
  add_client st name meter address phones = Some (st', out) ->
  exists notices phone,
    prompt_phone phones = (notices, Some phone) /\
    ((insert_client st (PyStr.strip name) (PyStr.strip meter)
        (PyStr.strip address) phone = Some st' /\
      out = notices ++ [ClientAdded]) \/
     (insert_client st (PyStr.strip name) (PyStr.strip meter)
        (PyStr.strip address) phone = None /\
      st' = st /\ out = notices ++ [MeterNumberExists])).
Proof.
  unfold add_client.
  destruct (prompt_phone phones) as [notices [phone|]]; [|discriminate].
  destruct (insert_client _ _ _ _ _) as [st2|] eqn:Hi;
    intros H; inversion H; subst; exists notices, phone; split; auto.
Qed.

Lemma run_all_reachable (cmds : list command) (st st' : db) :
  reachable st -> run_all st cmds = Some st' -> reachable st'.
Proof.
  revert st; induction cmds as [|cmd cmds IH]; simpl; intros st Hr H.
  - inversion H; subst; exact Hr.
  - destruct (run st cmd) as [[st1 out]|] eqn:Hrun; [|discriminate].
    apply (IH st1); [|exact H].
    eapply reach_step; eassumption.
Qed.

(** C3, as amended.  A call of [add_client] that comes back has turned down,
    with the notice, every line typed before the accepted one; the phone of
    the row it may add is the accepted line stripped, and it passes
    [validate_phone].  A string passes exactly when it is ten code points
    that [\d] matches, which are decimal digits of any script; among ASCII
    strings these are the strings of ten digits 0 to 9. *)
Theorem add_client_phone_rule (st : db) {st' : db}
  (name meter address : pystr) (phones : list pystr) {out : list message} :
  add_client st name meter address phones = Some (st', out) ->
  (exists rejected line rest final,
     phones = rejected ++ line :: rest /\
     Forall (fun l => validate_phone (PyStr.strip l) = false) rejected /\
     validate_phone (PyStr.strip line) = true /\
     out = repeat InvalidPhoneNumber (length rejected) ++ [final] /\
     (final = ClientAdded \/ final = MeterNumberExists) /\
     (forall c, In c (clients st') ->
                In c (clients st) \/ c_phone c = PyStr.strip line)) /\
  (forall p, validate_phone p = true <->
             length p = 10%nat /\
             Forall (fun c => PyStr.isdecimal c = true) p) /\
  (forall p, Forall (fun c => PyStr.is_ascii c = true) p ->
             (validate_phone p = true <->
              length p = 10%nat /\
              Forall (fun c => PyStr.is_ascii_digit c = true) p)).
Proof.
  intros H; split; [|split; [exact validate_phone_spec
                            | exact validate_phone_ascii]].
  apply add_client_inv in H.
  destruct H as (notices & phone & Hp & H).
  apply prompt_phone_some in Hp.
  destruct Hp as (rej & line & rest & -> & Hrej & -> & Hok & ->).
  destruct H as [[Hi ->]|(Hi & -> & ->)].
  - exists rej, line, rest, ClientAdded; repeat split; auto.
    apply insert_client_some in Hi; destruct Hi as (Hc & _).
    intros c Hin; rewrite Hc in Hin; apply in_app_or in Hin.
    destruct Hin as [Hin|[<-|[]]]; auto.
  - exists rej, line, rest, MeterNumberExists; repeat split; auto.
Qed.

Lemma add_client_phone_rule_witness :
  add_client create_tables (L "Asha") (L "M-100") (L "12 Lake Road")
    [L "12345"; L " 9876543210 "]
  = Some (after [AddClient (L "Asha") (L "M-100") (L "12 Lake Road")
                   [L "12345"; L " 9876543210 "]],
          [InvalidPhoneNumber; ClientAdded]) /\
  (forall p, validate_phone p = true <->
             length p = 10%nat /\
             Forall (fun c => PyStr.isdecimal c = true) p).
Proof.
  split; [reflexivity|].
  exact (proj1 (proj2 (add_client_phone_rule create_tables
                         (L "Asha") (L "M-100") (L "12 Lake Road")
                         [L "12345"; L " 9876543210 "] eq_refl))).
Defined.

(** C3, as stated, fails: a phone of ten Devanagari digits is no string of
    ASCII digits, and [add_client] stores it. *)
Lemma ascii_only_phone_counterexample :
  forallb PyStr.is_ascii_digit devanagari_phone = false /\
  validate_phone devanagari_phone = true /\
  add_client create_tables (L "Asha") (L "M-100") (L "12 Lake Road")
    [devanagari_phone]
  = Some (mkDb [mkClient 1 (L "Asha") (L "M-100") (L "12 Lake Road")
                  devanagari_phone] [] [] 1 0 0,
          [ClientAdded]).
Proof. repeat split. Qed.



(** ** What a selection does to the client table *)

Lemma remove_client_clients (st : db) (id_input : option Z) (confirm : pystr) :
  let st' := fst (remove_client st id_input confirm) in
  readings st' = readings st /\ bills st' = bills st /\
  clients_seq st' = clients_seq st /\
  (clients st' = clients st \/
   exists id, clients st'
              = filter (fun c => negb (Z.eqb (c_id c) id)) (clients st)).
Proof.
  unfold remove_client.
  destruct id_input as [id|]; simpl; auto.
  destruct (select_client st id); simpl;
    [|destruct (sqlite_integer id); simpl; auto].
  destruct (confirmed confirm); simpl; auto.
  repeat split; right; exists id; reflexivity.
Qed.

Lemma generate_bill_clients (st : db) (cid : sqlval) (start end_ : pystr) :
  let st' := fst (generate_bill st cid start end_) in
  clients st' = clients st /\ clients_seq st' = clients_seq st /\
  readings st' = readings st.
Proof.
  unfold generate_bill.
  destruct (length _ <? 2)%nat; simpl; auto.
  destruct (is_nan _ || is_nan _); simpl; auto.
Qed.

(** Every selection leaves the client table alone, deletes the rows of one
    id, or appends one row with a fresh id and a validated phone. *)
Lemma run_clients (st st' : db) (cmd : command) (out : list message) :
  run st cmd = Some (st', out) ->
  (clients st' = clients st /\ clients_seq st' = clients_seq st) \/
  (exists id,
     clients st' = filter (fun c => negb (Z.eqb (c_id c) id)) (clients st) /\
     clients_seq st' = clients_seq st) \/
  (exists name meter address phone,
     validate_phone phone = true /\
     clients st' = clients st
                   ++ [mkClient (clients_seq st + 1) name meter address phone] /\
     clients_seq st' = clients_seq st + 1).
Proof.
  destruct cmd; simpl; intros H; try (inversion H; subst; auto; fail).
  - apply add_client_inv in H.
    destruct H as (notices & phone & Hp & [[Hi _]|(_ & -> & _)]); auto.
    apply prompt_phone_some in Hp.
    destruct Hp as (_ & _ & _ & _ & _ & _ & Hok & _).
    apply insert_client_some in Hi.
    destruct Hi as (Hc & _ & _ & Hs & _).
    right; right; eauto 10.
  - inversion H as [H1].
    pose proof (remove_client_clients st id_input confirm) as X.
    rewrite H1 in X; simpl in X.
    destruct X as (_ & _ & Hs & [Hc|[id Hc]]); eauto.
  - inversion H as [H1].
    pose proof (generate_bill_clients st client_id start end_) as X.
    rewrite H1 in X; simpl in X.
    destruct X as (Hc & Hs & _); auto.
Qed.

(** C10.  In every store the menu can reach from a fresh file, the phone of
    every client row passes [validate_phone]: a row is added only with a
    phone that passed, and no selection changes a stored row. *)
Theorem stored_phones_valid (st : db) :
  reachable st ->
  Forall (fun c => validate_phone (c_phone c) = true) (clients st).
Proof.
  induction 1 as [|st cmd st' out _ IH Hrun].
  - constructor.
  - apply run_clients in Hrun.
    destruct Hrun as [[-> _]|[(id & -> & _)|(n & m & a & p & Hp & -> & _)]].
    + exact IH.
    + apply Forall_forall; intros c Hc.
      apply filter_In in Hc; destruct Hc as [Hc _].
      revert c Hc; apply Forall_forall; exact IH.
    + apply Forall_app; split; [exact IH|].
      constructor; [exact Hp | constructor].
Qed.

Lemma stored_phones_valid_witness :
  reachable january_db /\
  Forall (fun c => validate_phone (c_phone c) = true) (clients january_db).
Proof.
  assert (H : reachable january_db).
  { apply (run_all_reachable january_session create_tables);
      [apply reach_init | reflexivity]. }
  split; [exact H | exact (stored_phones_valid january_db H)].
Defined.

(** The PRIMARY KEY of the client table: ids are distinct and none is above
    the counter. *)
Lemma reachable_client_ids (st : db) :
  reachable st ->
  NoDup (map c_id (clients st)) /\
  Forall (fun c => c_id c <= clients_seq st) (clients st).
Proof.
  induction 1 as [|st cmd st' out _ [IHn IHs] Hrun].
  - split; constructor.
  - apply run_clients in Hrun.
    destruct Hrun as [[-> ->]|[(id & -> & ->)|(n & m & a & p & _ & -> & ->)]].
    + auto.
    + split.
      * clear IHs; induction (clients st) as [|c l IHl]; simpl; auto.
        inversion IHn; subst.
        destruct (negb (c_id c =? id)); simpl; auto.
        constructor; auto.
        rewrite in_map_iff in *; intros (x & Hx & Hin).
        apply filter_In in Hin; destruct Hin as [Hin _]; eauto.
      * apply Forall_forall; intros c Hc.
        apply filter_In in Hc; destruct Hc as [Hc _].
        revert c Hc; apply Forall_forall; exact IHs.
    + split.
      * rewrite map_app; simpl.
        apply Permutation_NoDup
          with (l := (clients_seq st + 1) :: map c_id (clients st)).
        { apply Permutation_cons_append. }
        constructor; auto.
        rewrite in_map_iff; intros (x & Hx & Hin).
        rewrite Forall_forall in IHs; specialize (IHs x Hin); lia.
      * apply Forall_app; split.
        { eapply Forall_impl; [|exact IHs]; simpl; intros; lia. }
        constructor; [simpl; lia | constructor].
Qed.

(** ** Removal *)

Lemma select_client_none (st : db) (id : Z) :
  select_client st id = None <-> ~ In id (map c_id (clients st)).
Proof.
  unfold select_client; split.
  - intros H Hin; apply in_map_iff in Hin; destruct Hin as (c & Hc & Hin).
    apply (find_none _ _ H) in Hin; simpl in Hin.
    rewrite Hc, Z.eqb_refl in Hin; discriminate.
  - intros H; destruct (find _ (clients st)) as [c|] eqn:E; auto.
    apply find_some in E; destruct E as [Hin Hc].
    apply Z.eqb_eq in Hc; subst.
    exfalso; apply H, in_map; exact Hin.
Qed.

(** Where the model tests for the [OverflowError] makes no difference to
    a table whose ids are 64-bit integers: an id that is none is the id of
    no row. *)
Lemma out_of_range_id_not_found (st : db) (id : Z) :
  Forall (fun c => sqlite_integer (c_id c) = true) (clients st) ->
  sqlite_integer id = false ->
  select_client st id = None.
Proof.
  intros Hall Hid; apply select_client_none; intros Hin.
  apply in_map_iff in Hin; destruct Hin as (c & Hc & Hin).
  rewrite Forall_forall in Hall; specialize (Hall c Hin).
  rewrite Hc in Hall; congruence.
Qed.




Lemma filter_all (A : Type) (f : A -> bool) (l : list A) :
  Forall (fun x => f x = true) l -> filter f l = l.
Proof.
  induction 1 as [|x l Hx _ IH]; simpl; auto.
  rewrite Hx, IH; reflexivity.
Qed.

Lemma split_by_id (l : list client) (id : Z) :
  NoDup (map c_id l) -> In id (map c_id l) ->
  exists before c rest,
    l = before ++ c :: rest /\ c_id c = id /\
    find (fun c => Z.eqb (c_id c) id) l = Some c /\
    filter (fun c => negb (Z.eqb (c_id c) id)) l = before ++ rest.
Proof.
  induction l as [|c l IH]; simpl; intros Hn Hin; [contradiction|].
  inversion Hn as [|? ? Hc Hn']; subst.
  destruct (Z.eqb_spec (c_id c) id) as [He|Hne].
  - exists [], c, l; simpl; repeat split; auto.
    apply filter_all, Forall_forall; intros x Hx.
    apply negb_true_iff, Z.eqb_neq; intros Hxid.
    apply Hc; rewrite He, <- Hxid; apply in_map; exact Hx.
  - destruct Hin as [Hin|Hin]; [contradiction|].
    destruct (IH Hn' Hin) as (before & c' & rest & -> & Hid & Hf & Hfl).
    exists (c :: before), c', rest; simpl; repeat split; auto.
    rewrite Hfl; reflexivity.
Qed.

(** C8.  For an id that a client row has, [remove_client], once the
    operator has confirmed, deletes that one row: the other client rows
    stay in their order, and the readings, the bills and the key counters
    are as they were. *)
Theorem remove_client_present (st : db) (id : Z) (confirm : pystr) :
  NoDup (map c_id (clients st)) ->
  In id (map c_id (clients st)) ->
  confirmed confirm = true ->
  exists before c rest,
    clients st = before ++ c :: rest /\ c_id c = id /\
    remove_client st (Some id) confirm
    = (mkDb (before ++ rest) (readings st) (bills st)
            (clients_seq st) (readings_seq st) (bills_seq st),
       view_clients st ++ [ClientRemoved]).
Proof.
  intros Hn Hin Hy.
  destruct (split_by_id (clients st) id Hn Hin)
    as (before & c & rest & Hl & Hid & Hf & Hfl).
  exists before, c, rest; repeat split; auto.
  unfold remove_client, select_client, delete_client.
  rewrite Hf, Hy, Hfl; reflexivity.
Qed.

Lemma remove_client_present_witness :
  exists before c rest,
    clients january_db = before ++ c :: rest /\ c_id c = 1 /\
    remove_client january_db (Some 1) (L "Y")
    = (mkDb (before ++ rest) (readings january_db) (bills january_db)
            (clients_seq january_db) (readings_seq january_db)
            (bills_seq january_db),
       view_clients january_db ++ [ClientRemoved]).
Proof.
  apply (remove_client_present january_db 1 (L "Y")).
  - simpl; repeat constructor; intros [].
  - simpl; auto.
  - reflexivity.
Defined.

(** ** Billing *)






(** ** Joins *)

Lemma join_clients_in (A B : Type) (key : A -> sqlval)
  (row : A -> client -> B) (cs : list client) (l : list A) (x : B) :
  In x (join_clients key row cs l) <->
  exists a c, In a l /\ In c cs /\
              sql_eqb (key a) (SqlInt (c_id c)) = true /\ x = row a c.
Proof.
  unfold join_clients; rewrite in_flat_map; split.
  - intros (a & Ha & Hx).
    apply in_map_iff in Hx; destruct Hx as (c & <- & Hc).
    apply filter_In in Hc; destruct Hc as [Hc Hm].
    exists a, c; auto.
  - intros (a & c & Ha & Hc & Hm & ->).
    exists a; split; [exact Ha|].
    apply in_map, filter_In; auto.
Qed.

Lemma join_clients_nil (A B : Type) (key : A -> sqlval)
  (row : A -> client -> B) (cs : list client) (l : list A) :
  join_clients key row cs l = [] <->
  forall a c, In a l -> In c cs -> sql_eqb (key a) (SqlInt (c_id c)) = false.
Proof.
  split.
  - intros H a c Ha Hc.
    destruct (sql_eqb (key a) (SqlInt (c_id c))) eqn:E; auto.
    assert (Hin : In (row a c) (join_clients key row cs l)).
    { apply join_clients_in; exists a, c; auto. }
    rewrite H in Hin; destruct Hin.
  - intros H.
    destruct (join_clients key row cs l) as [|x rest] eqn:E; auto.
    assert (Hin : In x (join_clients key row cs l)) by (rewrite E; left; auto).
    apply join_clients_in in Hin.
    destruct Hin as (a & c & Ha & Hc & Hm & _).
    rewrite (H a c Ha Hc) in Hm; discriminate.
Qed.

(** ** The report of readings *)

Lemma date_leb_total (a b : reading_row) :
  date_leb a b = true \/ date_leb b a = true.
Proof. apply pystr_leb_total. Qed.

Lemma date_leb_trans (a b c : reading_row) :
  date_leb a b = true -> date_leb b c = true -> date_leb a c = true.
Proof. apply pystr_leb_trans. Qed.

(** C9, as amended.  The report of [view_readings] holds one row for every
    pair of a reading and a client whose id is the client id of the
    reading, with the id, date and value of the reading and the name of
    the client; a reading whose client id is the id of no client has no
    row.  The rows are in ascending order of date.  The report is empty,
    and the notice that no readings were found is printed, exactly when
    there is no such pair. *)
Theorem view_readings_report (st : db) :
  let joined :=
    join_clients r_client_id
      (fun r c => mkReadingRow (r_id r) (c_name c) (r_date r) (r_reading r))
      (clients st) (readings st) in
  let report := select_readings_report st in
  (forall row,
     In row report <->
     exists r c, In r (readings st) /\ In c (clients st) /\
                 sql_eqb (r_client_id r) (SqlInt (c_id c)) = true /\
                 row = mkReadingRow (r_id r) (c_name c) (r_date r)
                         (r_reading r)) /\
  Permutation joined report /\
  StronglySorted (fun a b => PyStr.leb (rr_date a) (rr_date b) = true) report /\
  (report = [] <->
   forall r c, In r (readings st) -> In c (clients st) ->
               sql_eqb (r_client_id r) (SqlInt (c_id c)) = false) /\
  (report = [] -> view_readings st = [NoReadingsFound]) /\
  (report <> [] -> view_readings st = [MeterReadings report]).
Proof.
  intros joined report.
  assert (Hperm : Permutation joined report) by apply stable_sort_perm.
  repeat split.
  - intros H; apply Permutation_sym in Hperm.
    apply (Permutation_in _ Hperm), join_clients_in in H; exact H.
  - intros H; apply (Permutation_in _ Hperm), join_clients_in; exact H.
  - exact Hperm.
  - apply (stable_sort_sorted _ date_leb date_leb_total date_leb_trans).
  - intros H; apply join_clients_nil with (row := fun r c =>
      mkReadingRow (r_id r) (c_name c) (r_date r) (r_reading r)).
    fold joined; rewrite H in Hperm.
    apply Permutation_nil; apply Permutation_sym; exact Hperm.
  - intros H; unfold report, select_readings_report.
    fold joined.
    assert (Hj : joined = []) by (apply join_clients_nil; exact H).
    rewrite Hj; reflexivity.
  - unfold view_readings; fold report; intros ->; reflexivity.
  - unfold view_readings; fold report.
    destruct report; [intros H; contradiction H; reflexivity | reflexivity].
Qed.

(** C9, as stated, fails: the reading of [stray_reading_db] is in the
    table, no client has id 7, and [view_readings] reports that there are
    no readings. *)
Lemma stray_reading_not_listed :
  run_all create_tables
    [AddClient (L "Asha") (L "M-100") (L "12 Lake Road") [L "9876543210"];
     AddReading (SqlInt 7) (L "2024-01-01") 42%float]
  = Some stray_reading_db /\
  readings stray_reading_db = [mkReading 1 (SqlInt 7) (L "2024-01-01") 42] /\
  view_readings stray_reading_db = [NoReadingsFound] /\
  ~ (forall r, In r (readings stray_reading_db) ->
               exists row, In row (select_readings_report stray_reading_db) /\
                           rr_id row = r_id r).
Proof.
  repeat split.
  intros H.
  destruct (H (mkReading 1 (SqlInt 7) (L "2024-01-01") 42)) as (row & Hin & _).
  - left; reflexivity.
  - exact Hin.
Qed.

(** ** The frame of the analysis *)

Lemma sql_eqb_int_inj (v : sqlval) (x y : Z) :
  sql_eqb v (SqlInt x) = true -> sql_eqb v (SqlInt y) = true -> x = y.
Proof.
  destruct v as [z|q|s]; simpl; try discriminate.
  - intros Hx Hy; apply Z.eqb_eq in Hx, Hy; congruence.
  - intros Hx Hy; apply Qeq_bool_iff in Hx, Hy.
    apply inject_Z_injective; rewrite Hx, Hy; reflexivity.
Qed.

Lemma existsb_filter (A : Type) (f : A -> bool) (l : list A) :
  existsb f l = match filter f l with [] => false | _ => true end.
Proof.
  induction l as [|x l IH]; simpl; auto.
  destruct (f x); simpl; auto.
Qed.

(** A key matches at most one row of a client table with distinct ids. *)
Lemma filter_by_id (cs : list client) (v : sqlval) :
  NoDup (map c_id cs) ->
  filter (fun c => sql_eqb v (SqlInt (c_id c))) cs = [] \/
  exists c, filter (fun c => sql_eqb v (SqlInt (c_id c))) cs = [c].
Proof.
  induction cs as [|c cs IH]; simpl; intros Hn; auto.
  inversion Hn as [|? ? Hc Hn']; subst.
  destruct (sql_eqb v (SqlInt (c_id c))) eqn:E; [|auto].
  right; exists c; f_equal.
  destruct (filter _ cs) as [|x rest] eqn:F; auto.
  assert (Hx : In x (filter (fun c => sql_eqb v (SqlInt (c_id c))) cs))
    by (rewrite F; left; reflexivity).
  apply filter_In in Hx; destruct Hx as [Hx Hm].
  exfalso; apply Hc.
  rewrite (sql_eqb_int_inj v _ _ E Hm); apply in_map; exact Hx.
Qed.




(** ** The analysis *)

Lemma show_analysis_report (st : db) (ranked : list (pystr * float))
  (r : analysis_row) (rest : list analysis_row) :
  df_bills st = r :: rest ->
  show_analysis st ranked
  = [ConsumptionAnalysis
       (mkAnalysis (np_sum (map ar_units (df_bills st)))
                   (np_sum (map ar_amount (df_bills st)))
                   (np_mean (map ar_units (df_bills st)))
                   (format_2f (np_mean (map ar_units (df_bills st))))
                   (np_max (map ar_units (df_bills st)))
                   (firstn 5 ranked))].
Proof. unfold show_analysis; intros ->; reflexivity. Qed.




(** ** Grouping and ranking *)

Lemma insert_key_in (k x : pystr) (keys : list pystr) :
  In x (insert_key k keys) <-> x = k \/ In x keys.
Proof.
  induction keys as [|k' keys IH]; simpl.
  - intuition.
  - destruct (PyStr.compare k k') eqn:E; simpl.
    + apply pystr_compare_eq in E; subst; intuition.
    + intuition.
    + rewrite IH; intuition.
Qed.

Lemma insert_key_sorted (k : pystr) (keys : list pystr) :
  StronglySorted name_lt keys -> StronglySorted name_lt (insert_key k keys).
Proof.
  induction 1 as [|k' keys Hs IH Hk]; simpl.
  - repeat constructor.
  - destruct (PyStr.compare k k') eqn:E.
    + constructor; assumption.
    + constructor; [constructor; assumption|].
      constructor; [exact E|].
      eapply Forall_impl; [|exact Hk].
      intros x Hx; exact (pystr_compare_lt_trans k k' x E Hx).
    + constructor; [exact IH|].
      apply Forall_forall; intros x Hx.
      apply insert_key_in in Hx; destruct Hx as [->|Hx].
      * unfold name_lt; rewrite (pystr_compare_antisym k k'), E; reflexivity.
      * revert x Hx; apply Forall_forall; exact Hk.
Qed.

Lemma group_keys_in (names : list pystr) (x : pystr) :
  In x (group_keys names) <-> In x names.
Proof.
  induction names as [|k names IH]; simpl; [reflexivity|].
  rewrite insert_key_in, IH; intuition.
Qed.

Lemma group_keys_sorted (names : list pystr) :
  StronglySorted name_lt (group_keys names).
Proof.
  induction names as [|k names IH]; simpl;
    [constructor | apply insert_key_sorted, IH].
Qed.

Lemma groupby_names (df : list analysis_row) :
  map fst (groupby_name_units_sum df) = group_keys (map ar_name df).
Proof.
  unfold groupby_name_units_sum; rewrite map_map; apply map_id.
Qed.




(** * Further properties of the program *)

Local Open Scope Z_scope.

(** ** Removal, in every case *)

Lemma confirmed_spec (confirm : pystr) :
  confirmed confirm = true <-> confirm = L "y" \/ confirm = L "Y".
Proof.
  unfold confirmed; rewrite orb_true_iff, !pystr_eqb_eq; reflexivity.
Qed.

(** X1.  [remove_client] never touches the readings, the bills or the key
    counters, and it changes the client table in one case only: the input
    is a number, a client has that id, and the answer is [y] or [Y]; the
    rows of that id are then the ones deleted. *)
Theorem remove_client_frame (st : db) (id_input : option Z)
  (confirm : pystr) :
  let st' := fst (remove_client st id_input confirm) in
  readings st' = readings st /\ bills st' = bills st /\
  clients_seq st' = clients_seq st /\
  readings_seq st' = readings_seq st /\ bills_seq st' = bills_seq st /\
  (st' = st \/
   exists id,
     id_input = Some id /\ In id (map c_id (clients st)) /\
     (confirm = L "y" \/ confirm = L "Y") /\
     clients st' = filter (fun c => negb (Z.eqb (c_id c) id)) (clients st)).
Proof.
  unfold remove_client.
  destruct id_input as [id|]; simpl; [|repeat split; auto].
  destruct (select_client st id) as [c|] eqn:Hs; simpl;
    [|destruct (sqlite_integer id); simpl; repeat split; auto].
  destruct (confirmed confirm) eqn:Hc; simpl; [|repeat split; auto].
  repeat split; right; exists id; repeat split.
  - apply find_some in Hs; destruct Hs as [Hin Hid].
    apply Z.eqb_eq in Hid; subst; apply in_map; exact Hin.
  - apply confirmed_spec; exact Hc.
Qed.

(** ** The phone prompt *)

Lemma prompt_phone_none (inputs : list pystr) :
  snd (prompt_phone inputs) = None <->
  Forall (fun l => validate_phone (PyStr.strip l) = false) inputs.
Proof.
  induction inputs as [|l inputs IH]; simpl.
  - split; auto.
  - destruct (validate_phone (PyStr.strip l)) eqn:Hv; simpl.
    + split; [discriminate | intros H; inversion H; congruence].
    + destruct (prompt_phone inputs) as [out r]; simpl in *.
      rewrite IH; split; [intros H; constructor; assumption|].
      intros H; inversion H; assumption.
Qed.

(** X2.  [add_client] fails to come back exactly when no line typed at the phone
    prompt is, once stripped, a valid phone: the loop has no other exit,
    whatever the name, the meter number and the store are. *)
Theorem add_client_blocks_iff (st : db) (name meter address : pystr)
  (phones : list pystr) :
  add_client st name meter address phones = None <->
  Forall (fun l => validate_phone (PyStr.strip l) = false) phones.
Proof.
  rewrite <- prompt_phone_none; unfold add_client.
  destruct (prompt_phone phones) as [out [phone|]]; simpl.
  - destruct (insert_client _ _ _ _ _); split; discriminate.
  - split; reflexivity.
Qed.

(** ** Keys of the client table *)

(** As [run_clients], with what the UNIQUE constraint gives for the row
    added. *)
Lemma run_clients_fresh (st st' : db) (cmd : command) (out : list message) :
  run st cmd = Some (st', out) ->
  (clients st' = clients st /\ clients_seq st' = clients_seq st) \/
  (exists id,
     clients st' = filter (fun c => negb (Z.eqb (c_id c) id)) (clients st) /\
     clients_seq st' = clients_seq st) \/
  (exists name meter address phone,
     ~ In meter (map c_meter_no (clients st)) /\
     clients st' = clients st
                   ++ [mkClient (clients_seq st + 1) name meter address phone] /\
     clients_seq st' = clients_seq st + 1).
Proof.
  destruct cmd; simpl; intros H; try (inversion H; subst; auto; fail).
  - apply add_client_inv in H.
    destruct H as (notices & phone & _ & [[Hi _]|(_ & -> & _)]); auto.
    apply insert_client_some in Hi.
    destruct Hi as (Hc & _ & _ & Hs & _ & _ & Hfresh).
    right; right; exists (PyStr.strip name), (PyStr.strip meter),
      (PyStr.strip address), phone; repeat split; auto.
    intros Hin; apply in_map_iff in Hin; destruct Hin as (c & Hm & Hin).
    rewrite Forall_forall in Hfresh; exact (Hfresh c Hin Hm).
  - inversion H as [H1].
    pose proof (remove_client_clients st id_input confirm) as X.
    rewrite H1 in X; simpl in X.
    destruct X as (_ & _ & Hs & [Hc|[id Hc]]); eauto.
  - inversion H as [H1].
    pose proof (generate_bill_clients st client_id start end_) as X.
    rewrite H1 in X; simpl in X.
    destruct X as (Hc & Hs & _); auto.
Qed.

Lemma filter_keeps_distinct (R K : Type) (key : R -> K) (rows : list R)
  (keep : R -> bool) :
  NoDup (map key rows) -> NoDup (map key (filter keep rows)).
Proof.
  intros Hn; induction rows as [|x rows IH]; simpl in *; [constructor|].
  apply NoDup_cons_iff in Hn; destruct Hn as [Hx Hn].
  destruct (keep x); simpl; [|exact (IH Hn)].
  apply NoDup_cons; [|exact (IH Hn)].
  intros Hin; apply Hx.
  apply in_map_iff in Hin; destruct Hin as (y & Hy & Hin).
  apply filter_In in Hin; rewrite <- Hy; apply in_map, Hin.
Qed.

Lemma sorted_map_filter (A B : Type) (R : B -> B -> Prop) (f : A -> B)
  (p : A -> bool) (l : list A) :
  StronglySorted R (map f l) -> StronglySorted R (map f (filter p l)).
Proof.
  induction l as [|x l IH]; simpl; intros Hs; auto.
  inversion Hs as [|? ? Hs' Hx]; subst.
  destruct (p x); simpl; auto.
  constructor; auto.
  rewrite Forall_forall in *; intros y Hy.
  apply Hx; rewrite in_map_iff in *.
  destruct Hy as (z & Hz & Hin).
  apply filter_In in Hin; destruct Hin as [Hin _]; eauto.
Qed.

Lemma sorted_snoc (A : Type) (R : A -> A -> Prop) (l : list A) (x : A) :
  StronglySorted R l -> Forall (fun y => R y x) l ->
  StronglySorted R (l ++ [x]).
Proof.
  induction 1 as [|y l Hs IH Hy]; simpl; intros Hx.
  - repeat constructor.
  - inversion Hx; subst.
    constructor; auto.
    apply Forall_app; split; auto.
Qed.

(** X3.  In every store the menu can reach, no two clients have the same meter
    number: the UNIQUE constraint turns every second use down, and no
    selection rewrites a meter number. *)
Theorem meter_numbers_unique (st : db) :
  reachable st -> NoDup (map c_meter_no (clients st)).
Proof.
  induction 1 as [|st cmd st' out _ IH Hrun].
  - constructor.
  - apply run_clients_fresh in Hrun.
    destruct Hrun as [[-> _]|[(id & -> & _)|(n & m & a & p & Hf & -> & _)]].
    + exact IH.
    + apply filter_keeps_distinct; exact IH.
    + rewrite map_app; simpl.
      apply Permutation_NoDup with (l := m :: map c_meter_no (clients st)).
      * apply Permutation_cons_append.
      * constructor; assumption.
Qed.

Lemma meter_numbers_unique_witness :
  reachable ravi_removed_db /\
  NoDup (map c_meter_no (clients ravi_removed_db)).
Proof.
  assert (H : reachable ravi_removed_db).
  { apply (run_all_reachable
             (three_bills_session ++ [RemoveClient (Some 2) (L "y")])
             create_tables);
      [apply reach_init | reflexivity]. }
  split; [exact H | exact (meter_numbers_unique ravi_removed_db H)].
Defined.

(** X4.  In every store the menu can reach, the client table lists the clients
    in strictly ascending order of id, the order of registration, and no id
    is above the AUTOINCREMENT counter. *)
Theorem client_ids_ascending (st : db) :
  reachable st ->
  StronglySorted Z.lt (map c_id (clients st)) /\
  Forall (fun c => c_id c <= clients_seq st) (clients st).
Proof.
  induction 1 as [|st cmd st' out _ [IHs IHb] Hrun].
  - split; constructor.
  - apply run_clients in Hrun.
    destruct Hrun as [[-> ->]|[(id & -> & ->)|(n & m & a & p & _ & -> & ->)]].
    + auto.
    + split; [apply sorted_map_filter; exact IHs|].
      apply Forall_forall; intros c Hc.
      apply filter_In in Hc; destruct Hc as [Hc _].
      revert c Hc; apply Forall_forall; exact IHb.
    + split.
      * rewrite map_app; simpl; apply sorted_snoc; [exact IHs|].
        apply Forall_map.
        eapply Forall_impl; [|exact IHb]; simpl; intros; lia.
      * apply Forall_app; split.
        { eapply Forall_impl; [|exact IHb]; simpl; intros; lia. }
        constructor; [simpl; lia | constructor].
Qed.

Lemma client_ids_ascending_witness :
  reachable three_bills_db /\
  StronglySorted Z.lt (map c_id (clients three_bills_db)) /\
  Forall (fun c => c_id c <= clients_seq three_bills_db)
    (clients three_bills_db).
Proof.
  assert (H : reachable three_bills_db).
  { apply (run_all_reachable three_bills_session create_tables);
      [apply reach_init | reflexivity]. }
  split; [exact H | exact (client_ids_ascending three_bills_db H)].
Defined.

(** X5.  A client id is never given twice: an id at or below the counter that no
    client has, as the id of a removed client is, belongs to no client
    after any further selections. *)
Theorem client_id_not_reused (cmds : list command) (st st' : db) (id : Z) :
  id <= clients_seq st ->
  ~ In id (map c_id (clients st)) ->
  run_all st cmds = Some st' ->
  ~ In id (map c_id (clients st')) /\ id <= clients_seq st'.
Proof.
  revert st; induction cmds as [|cmd cmds IH]; simpl; intros st Hle Hnot H.
  - inversion H; subst; auto.
  - destruct (run st cmd) as [[st1 out]|] eqn:Hrun; [|discriminate].
    apply (IH st1); [| |exact H]; apply run_clients in Hrun;
      destruct Hrun
        as [[Hc Hs]|[(i & Hc & Hs)|(n & m & a & p & _ & Hc & Hs)]];
      rewrite ?Hc, ?Hs; try lia; auto.
    + intros Hin; apply Hnot.
      apply in_map_iff in Hin; destruct Hin as (c & Hid & Hin).
      apply filter_In in Hin; destruct Hin as [Hin _].
      apply in_map_iff; eauto.
    + rewrite map_app, in_app_iff; simpl; intros [Hin|[Hin|[]]]; [auto|lia].
Qed.

Lemma client_id_not_reused_witness :
  ~ In 2 (map c_id (clients ravi_removed_db)) /\
  ~ In 2 (map c_id
            (clients (after (three_bills_session
                             ++ [RemoveClient (Some 2) (L "y");
                                 AddClient (L "Ravi") (L "M-200")
                                   (L "3 Hill Street") [L "9123456780"]]))))
  /\ map c_id
       (clients (after (three_bills_session
                        ++ [RemoveClient (Some 2) (L "y");
                            AddClient (L "Ravi") (L "M-200")
                              (L "3 Hill Street") [L "9123456780"]])))
     = [1; 3].
Proof.
  assert (Hle : 2 <= clients_seq ravi_removed_db) by (vm_compute; discriminate).
  assert (Hn : ~ In 2 (map c_id (clients ravi_removed_db))).
  { simpl; intros [H|[]]; discriminate. }
  split; [exact Hn|]; split; [|reflexivity].
  exact (proj1 (client_id_not_reused
                  [AddClient (L "Ravi") (L "M-200") (L "3 Hill Street")
                     [L "9123456780"]]
                  ravi_removed_db _ 2 Hle Hn eq_refl)).
Defined.

(** ** Readings and bills are only ever appended *)

Lemma remove_client_rows (st : db) (id_input : option Z) (confirm : pystr) :
  let st' := fst (remove_client st id_input confirm) in
  readings st' = readings st /\ bills st' = bills st /\
  readings_seq st' = readings_seq st /\ bills_seq st' = bills_seq st.
Proof.
  unfold remove_client.
  destruct id_input as [id|]; simpl; auto.
  destruct (select_client st id); simpl;
    [|destruct (sqlite_integer id); simpl; auto].
  destruct (confirmed confirm); simpl; auto.
Qed.

Lemma add_client_rows (st st' : db) (name meter address : pystr)
  (phones : list pystr) (out : list message) :
  add_client st name meter address phones = Some (st', out) ->
  readings st' = readings st /\ bills st' = bills st /\
  readings_seq st' = readings_seq st /\ bills_seq st' = bills_seq st.
Proof.
  intros H; apply add_client_inv in H.
  destruct H as (notices & phone & _ & [[Hi _]|(_ & -> & _)]); auto.
  apply insert_client_some in Hi; intuition.
Qed.

(** What one selection does to the reading and bill tables. *)
Lemma run_rows (st st' : db) (cmd : command) (out : list message) :
  run st cmd = Some (st', out) ->
  ((readings st' = readings st /\ readings_seq st' = readings_seq st) \/
   exists cid date v,
     readings st'
     = readings st ++ [mkReading (readings_seq st + 1) cid date v] /\
     readings_seq st' = readings_seq st + 1) /\
  ((bills st' = bills st /\ bills_seq st' = bills_seq st) \/
   exists cid start end_ units amount,
     bills st'
     = bills st
       ++ [mkBill (bills_seq st + 1) cid start end_ units amount unpaid] /\
     bills_seq st' = bills_seq st + 1).
Proof.
  destruct cmd; simpl; intros H;
    try (inversion H; subst; split; left; auto; fail).
  - apply add_client_rows in H; destruct H as (-> & -> & -> & ->).
    split; left; auto.
  - inversion H as [H1].
    pose proof (remove_client_rows st id_input confirm) as X.
    rewrite H1 in X; simpl in X; destruct X as (-> & -> & -> & ->).
    split; left; auto.
  - inversion H; subst; simpl; split; [right; eauto | left; auto].
  - inversion H as [H1]; clear H; unfold generate_bill in H1.
    destruct (length _ <? 2)%nat;
      [|destruct (is_nan _ || is_nan _)]; inversion H1; subst; simpl.
    + split; left; auto.
    + split; left; auto.
    + split; [left; auto | right; eauto 10].
Qed.

(** X6.  No selection deletes or rewrites a reading or a bill: after any
    selections the reading table and the bill table begin with the rows
    they had, in the same order. *)
Theorem readings_and_bills_append_only (cmds : list command) (st st' : db) :
  run_all st cmds = Some st' ->
  exists new_readings new_bills,
    readings st' = readings st ++ new_readings /\
    bills st' = bills st ++ new_bills.
Proof.
  revert st; induction cmds as [|cmd cmds IH]; simpl; intros st H.
  - inversion H; subst; exists [], []; rewrite !app_nil_r; auto.
  - destruct (run st cmd) as [[st1 out]|] eqn:Hrun; [|discriminate].
    destruct (IH st1 H) as (rs & bs & Hr & Hb).
    apply run_rows in Hrun; destruct Hrun as [Hr1 Hb1].
    assert (Hr' : exists r1, readings st1 = readings st ++ r1).
    { destruct Hr1 as [[-> _]|(c & d & v & -> & _)];
        [exists []; rewrite app_nil_r | eexists]; reflexivity. }
    assert (Hb' : exists b1, bills st1 = bills st ++ b1).
    { destruct Hb1 as [[-> _]|(c & s & e & u & a & -> & _)];
        [exists []; rewrite app_nil_r | eexists]; reflexivity. }
    destruct Hr' as [r1 Hr'], Hb' as [b1 Hb'].
    exists (r1 ++ rs), (b1 ++ bs).
    rewrite Hr, Hb, Hr', Hb', !app_assoc; auto.
Qed.

Lemma readings_and_bills_append_only_witness :
  exists new_readings new_bills,
    readings (after (january_session
                     ++ [AddReading (SqlInt 1) (L "2024-02-29") 150%float;
                         GenerateBill (SqlInt 1) (L "2024-01-31")
                           (L "2024-02-29");
                         RemoveClient (Some 1) (L "y")]))
    = readings january_db ++ new_readings /\
    bills (after (january_session
                  ++ [AddReading (SqlInt 1) (L "2024-02-29") 150%float;
                      GenerateBill (SqlInt 1) (L "2024-01-31")
                        (L "2024-02-29");
                      RemoveClient (Some 1) (L "y")]))
    = bills january_db ++ new_bills.
Proof.
  apply (readings_and_bills_append_only
           [AddReading (SqlInt 1) (L "2024-02-29") 150%float;
            GenerateBill (SqlInt 1) (L "2024-01-31") (L "2024-02-29");
            RemoveClient (Some 1) (L "y")]
           january_db).
  reflexivity.
Defined.

Lemma seq_snoc_Z (n : nat) :
  map Z.of_nat (seq 1 (S n)) = map Z.of_nat (seq 1 n) ++ [Z.of_nat n + 1].
Proof.
  rewrite seq_S, map_app; simpl; do 2 f_equal; lia.
Qed.

(** X7.  In every store the menu can reach, the readings are numbered 1, 2, 3,
    ... in the order they were entered and the bills likewise, without a
    gap; the counters stand at the number of rows; every bill has the
    status "Unpaid". *)
Theorem rows_numbered_in_order (st : db) :
  reachable st ->
  map r_id (readings st)
  = map Z.of_nat (seq 1 (length (readings st))) /\
  readings_seq st = Z.of_nat (length (readings st)) /\
  map b_id (bills st) = map Z.of_nat (seq 1 (length (bills st))) /\
  bills_seq st = Z.of_nat (length (bills st)) /\
  Forall (fun b => b_status b = L "Unpaid") (bills st).
Proof.
  induction 1 as [|st cmd st' out _ (IHr & IHrs & IHb & IHbs & IHu) Hrun].
  - repeat split; constructor.
  - apply run_rows in Hrun; destruct Hrun as [Hr Hb].
    assert (Hr' : map r_id (readings st')
                  = map Z.of_nat (seq 1 (length (readings st'))) /\
                  readings_seq st' = Z.of_nat (length (readings st'))).
    { destruct Hr as [[-> ->]|(c & d & v & -> & ->)]; [auto|].
      rewrite map_app, length_app, IHr, IHrs; simpl length.
      rewrite Nat.add_1_r, seq_snoc_Z; simpl; split; [reflexivity | lia]. }
    assert (Hb' : map b_id (bills st')
                  = map Z.of_nat (seq 1 (length (bills st'))) /\
                  bills_seq st' = Z.of_nat (length (bills st')) /\
                  Forall (fun b => b_status b = L "Unpaid") (bills st')).
    { destruct Hb as [[-> ->]|(c & s & e & u & a & -> & ->)]; [auto|].
      rewrite map_app, length_app, IHb, IHbs; simpl length.
      rewrite Nat.add_1_r, seq_snoc_Z; simpl; split; [reflexivity|].
      split; [lia|].
      apply Forall_app; split; [exact IHu | repeat constructor]. }
    tauto.
Qed.

Lemma rows_numbered_in_order_witness :
  reachable ravi_removed_db /\
  map r_id (readings ravi_removed_db) = [1; 2; 3; 4; 5] /\
  map b_id (bills ravi_removed_db) = [1; 2; 3] /\
  Forall (fun b => b_status b = L "Unpaid") (bills ravi_removed_db).
Proof.
  assert (H : reachable ravi_removed_db).
  { apply (run_all_reachable
             (three_bills_session ++ [RemoveClient (Some 2) (L "y")])
             create_tables);
      [apply reach_init | reflexivity]. }
  destruct (rows_numbered_in_order ravi_removed_db H)
    as (Hr & _ & Hb & _ & Hu).
  split; [exact H|]; split; [exact Hr|]; split; [exact Hb | exact Hu].
Defined.

(** ** Stripping *)

Lemma lstrip_no_leading_space (s : pystr) : no_leading_space (PyStr.lstrip s).
Proof.
  induction s as [|c s IH]; simpl; auto.
  destruct (PyStr.isspace c) eqn:E; simpl; auto.
Qed.

Lemma lstrip_fixed (s : pystr) : no_leading_space s -> PyStr.lstrip s = s.
Proof.
  destruct s as [|c s]; simpl; auto.
  intros ->; reflexivity.
Qed.

Lemma lstrip_snoc (s : pystr) (c : N) :
  PyStr.isspace c = false -> exists t, PyStr.lstrip (s ++ [c]) = t ++ [c].
Proof.
  intros Hc; induction s as [|x s IH]; simpl.
  - rewrite Hc; exists []; reflexivity.
  - destruct (PyStr.isspace x); [exact IH|].
    exists (x :: s); reflexivity.
Qed.

Lemma rstrip_no_leading_space (t : pystr) :
  no_leading_space t -> no_leading_space (rev (PyStr.lstrip (rev t))).
Proof.
  destruct t as [|c t]; simpl; auto.
  intros Hc; destruct (lstrip_snoc (rev t) c Hc) as [w ->].
  rewrite rev_app_distr; simpl; exact Hc.
Qed.

Lemma strip_trimmed (s : pystr) : trimmed (PyStr.strip s).
Proof.
  unfold trimmed, PyStr.strip; split.
  - apply rstrip_no_leading_space, lstrip_no_leading_space.
  - rewrite rev_involutive; apply lstrip_no_leading_space.
Qed.

Lemma strip_fixed (s : pystr) : trimmed s -> PyStr.strip s = s.
Proof.
  intros [Hl Hr]; unfold PyStr.strip.
  rewrite (lstrip_fixed s Hl), (lstrip_fixed (rev s) Hr).
  apply rev_involutive.
Qed.

(** X8.  [strip] gives a string that neither begins nor ends with whitespace,
    leaves such a string as it is, and so does nothing when applied
    twice. *)
Theorem strip_idempotent (s : pystr) :
  trimmed (PyStr.strip s) /\
  (trimmed s -> PyStr.strip s = s) /\
  PyStr.strip (PyStr.strip s) = PyStr.strip s.
Proof.
  split; [apply strip_trimmed|]; split; [apply strip_fixed|].
  apply strip_fixed, strip_trimmed.
Qed.

(** As [run_clients], with where the fields of the row added come from. *)
Lemma run_clients_stripped (st st' : db) (cmd : command)
  (out : list message) :
  run st cmd = Some (st', out) ->
  clients st' = clients st \/
  (exists id,
     clients st' = filter (fun c => negb (Z.eqb (c_id c) id)) (clients st)) \/
  (exists name meter address line,
     clients st' = clients st
                   ++ [mkClient (clients_seq st + 1) (PyStr.strip name)
                         (PyStr.strip meter) (PyStr.strip address)
                         (PyStr.strip line)]).
Proof.
  destruct cmd; simpl; intros H; try (inversion H; subst; auto; fail).
  - apply add_client_inv in H.
    destruct H as (notices & phone & Hp & [[Hi _]|(_ & -> & _)]); auto.
    apply prompt_phone_some in Hp.
    destruct Hp as (_ & line & _ & _ & _ & -> & _).
    apply insert_client_some in Hi; destruct Hi as (Hc & _).
    right; right; eauto 10.
  - inversion H as [H1].
    pose proof (remove_client_clients st id_input confirm) as X.
    rewrite H1 in X; simpl in X.
    destruct X as (_ & _ & _ & [Hc|[id Hc]]); eauto.
  - inversion H as [H1].
    pose proof (generate_bill_clients st client_id start end_) as X.
    rewrite H1 in X; simpl in X.
    destruct X as (Hc & _); auto.
Qed.

(** X9.  In every store the menu can reach, the name, meter number, address and
    phone of every client neither begin nor end with whitespace: they are
    stored as stripped and no selection rewrites them. *)
Theorem stored_fields_trimmed (st : db) :
  reachable st ->
  Forall (fun c => trimmed (c_name c) /\ trimmed (c_meter_no c) /\
                   trimmed (c_address c) /\ trimmed (c_phone c))
    (clients st).
Proof.
  induction 1 as [|st cmd st' out _ IH Hrun].
  - constructor.
  - apply run_clients_stripped in Hrun.
    destruct Hrun as [->|[(id & ->)|(n & m & a & l & ->)]].
    + exact IH.
    + apply Forall_forall; intros c Hc.
      apply filter_In in Hc; destruct Hc as [Hc _].
      revert c Hc; apply Forall_forall; exact IH.
    + apply Forall_app; split; [exact IH|].
      constructor; [|constructor].
      simpl; auto using strip_trimmed.
Qed.

Lemma stored_fields_trimmed_witness :
  reachable january_db /\
  Forall (fun c => trimmed (c_name c) /\ trimmed (c_meter_no c) /\
                   trimmed (c_address c) /\ trimmed (c_phone c))
    (clients january_db).
Proof.
  assert (H : reachable january_db).
  { apply (run_all_reachable january_session create_tables);
      [apply reach_init | reflexivity]. }
  split; [exact H | exact (stored_fields_trimmed january_db H)].
Defined.

(** ** Entering and listing *)

(** X10.  After a registration that ends with the notice that the client was
    added, [view_clients] lists the clients there were, in their order, and
    then the new one: the next id, the name, meter number and address as
    typed but stripped, and the first valid line of the phone prompt,
    stripped.  After one that ends with the notice that the meter number
    exists, it lists what it listed before. *)
Theorem add_client_then_view (st : db) {st' : db}
  (name meter address : pystr) (phones : list pystr) {out : list message} :
  add_client st name meter address phones = Some (st', out) ->
  (last out NoClientsFound = ClientAdded /\
   exists rejected line rest,
     phones = rejected ++ line :: rest /\
     Forall (fun l => validate_phone (PyStr.strip l) = false) rejected /\
     validate_phone (PyStr.strip line) = true /\
     view_clients st'
     = [ClientList
          (clients st
           ++ [mkClient (clients_seq st + 1) (PyStr.strip name)
                 (PyStr.strip meter) (PyStr.strip address)
                 (PyStr.strip line)])]) \/
  (last out NoClientsFound = MeterNumberExists /\
   view_clients st' = view_clients st).
Proof.
  intros H; apply add_client_inv in H.
  destruct H as (notices & phone & Hp & [[Hi ->]|(_ & -> & ->)]).
  - left; split; [apply last_last|].
    apply prompt_phone_some in Hp.
    destruct Hp as (rej & line & rest & -> & Hrej & -> & Hok & _).
    exists rej, line, rest; repeat split; auto.
    apply insert_client_some in Hi; destruct Hi as (Hc & _).
    unfold view_clients; rewrite Hc.
    destruct (clients st); reflexivity.
  - right; split; [apply last_last | reflexivity].
Qed.

Lemma add_client_then_view_witness :
  let st' := after [AddClient (L " Asha ") (L "M-100 ") (L "12 Lake Road")
                      [L "12345"; L " 9876543210 "]] in
  let out := [InvalidPhoneNumber; ClientAdded] in
  add_client create_tables (L " Asha ") (L "M-100 ") (L "12 Lake Road")
    [L "12345"; L " 9876543210 "] = Some (st', out) /\
  ((last out NoClientsFound = ClientAdded /\
    exists rejected line rest,
      [L "12345"; L " 9876543210 "] = rejected ++ line :: rest /\
      Forall (fun l => validate_phone (PyStr.strip l) = false) rejected /\
      validate_phone (PyStr.strip line) = true /\
      view_clients st'
      = [ClientList
           (clients create_tables
            ++ [mkClient (clients_seq create_tables + 1)
                  (PyStr.strip (L " Asha ")) (PyStr.strip (L "M-100 "))
                  (PyStr.strip (L "12 Lake Road")) (PyStr.strip line)])]) \/
   (last out NoClientsFound = MeterNumberExists /\
    view_clients st' = view_clients create_tables)).
Proof.
  split; [reflexivity|].
  exact (add_client_then_view create_tables (L " Asha ") (L "M-100 ")
           (L "12 Lake Road") [L "12345"; L " 9876543210 "] eq_refl).
Defined.


(** ** Which readings a bill is made from *)








(** ** The report of bills *)

Lemma join_clients_rows (A B : Type) (key : A -> sqlval)
  (row : A -> client -> B) (cs : list client) (l : list A) :
  NoDup (map c_id cs) ->
  Forall2
    (fun y a => exists c, In c cs /\
                          sql_eqb (key a) (SqlInt (c_id c)) = true /\
                          y = row a c)
    (join_clients key row cs l)
    (filter (fun a => existsb (fun c => sql_eqb (key a) (SqlInt (c_id c))) cs)
       l).
Proof.
  intros Hn; induction l as [|a l IH]; simpl; [constructor|].
  rewrite existsb_filter.
  destruct (filter_by_id cs (key a) Hn) as [E|[c E]]; rewrite E; simpl; auto.
  constructor; [|exact IH].
  assert (Hc : In c (filter (fun c => sql_eqb (key a) (SqlInt (c_id c))) cs))
    by (rewrite E; left; reflexivity).
  apply filter_In in Hc; destruct Hc as [Hc Hm].
  exists c; auto.
Qed.

(** X15.  In a store with distinct client ids, the report of [view_bills] has one
    row for each bill whose client id is the id of a client, in the order
    of the bill table, with the fields of the bill and the name of that
    client; the other bills are left out, and when every bill is left out
    the notice that no bills were found is printed. *)
Theorem view_bills_report (st : db) :
  NoDup (map c_id (clients st)) ->
  Forall2
    (fun row b =>
       exists c, In c (clients st) /\
                 sql_eqb (b_client_id b) (SqlInt (c_id c)) = true /\
                 row = mkBillRow (b_id b) (c_name c) (b_start_date b)
                         (b_end_date b) (b_units b) (b_amount b)
                         (b_status b))
    (select_bills_report st) (billed st) /\
  (billed st = [] -> view_bills st = [NoBillsFound]) /\
  (billed st <> [] -> view_bills st = [BillDetails (select_bills_report st)]).
Proof.
  intros Hn.
  assert (H : Forall2
                (fun row b =>
                   exists c, In c (clients st) /\
                             sql_eqb (b_client_id b) (SqlInt (c_id c)) = true /\
                             row = mkBillRow (b_id b) (c_name c)
                                     (b_start_date b) (b_end_date b)
                                     (b_units b) (b_amount b) (b_status b))
                (select_bills_report st) (billed st)).
  { apply (join_clients_rows _ _ b_client_id
             (fun b c => mkBillRow (b_id b) (c_name c) (b_start_date b)
                           (b_end_date b) (b_units b) (b_amount b)
                           (b_status b))
             (clients st) (bills st) Hn). }
  split; [exact H|].
  unfold view_bills; split; intros Hb.
  - rewrite Hb in H; inversion H; reflexivity.
  - destruct (select_bills_report st); [|reflexivity].
    inversion H as [Hnil|]; contradiction Hb; auto.
Qed.

Lemma view_bills_report_witness :
  NoDup (map c_id (clients ravi_removed_db)) /\
  map br_id (select_bills_report ravi_removed_db) = [1; 3] /\
  view_bills ravi_removed_db
  = [BillDetails (select_bills_report ravi_removed_db)].
Proof.
  assert (Hn : NoDup (map c_id (clients ravi_removed_db))).
  { simpl; repeat constructor; simpl; intuition. }
  split; [exact Hn|]; split; [reflexivity|].
  apply (view_bills_report ravi_removed_db Hn); discriminate.
Defined.

(** ** The top consumers are groups *)

Lemma sorted_names_nodup (l : list pystr) :
  StronglySorted name_lt l -> NoDup l.
Proof.
  induction 1 as [|k l _ IH Hk]; constructor; auto.
  intros Hin; rewrite Forall_forall in Hk; specialize (Hk k Hin).
  unfold name_lt in Hk.
  rewrite (proj2 (pystr_compare_eq k k) eq_refl) in Hk; discriminate.
Qed.

Lemma nodup_firstn (A : Type) (n : nat) (l : list A) :
  NoDup l -> NoDup (firstn n l).
Proof.
  intros H; rewrite <- (firstn_skipn n l) in H.
  apply NoDup_app_remove_r in H; exact H.
Qed.

Lemma in_firstn (A : Type) (n : nat) (l : list A) (x : A) :
  In x (firstn n l) -> In x l.
Proof.
  intros H; rewrite <- (firstn_skipn n l); apply in_or_app; left; exact H.
Qed.

(** X16.  When [sort_values] returns a descending order of the groups, the
    top consumers that [show_analysis] reports are at most five, have
    distinct names, and each is a group of the frame, under the name of
    one of its rows; with five groups or fewer they are all the groups. *)
Theorem top_consumers_are_groups (st : db) (ranked : list (pystr * float))
  (report : analysis) :
  sort_values_desc (groupby_name_units_sum (df_bills st)) ranked ->
  show_analysis st ranked = [ConsumptionAnalysis report] ->
  (length (top_list report) <= 5)%nat /\
  NoDup (map fst (top_list report)) /\
  (forall g, In g (top_list report) ->
             In g (groupby_name_units_sum (df_bills st)) /\
             In (fst g) (map ar_name (df_bills st))) /\
  ((length (groupby_name_units_sum (df_bills st)) <= 5)%nat ->
   Permutation (groupby_name_units_sum (df_bills st)) (top_list report)).
Proof.
  intros [Hperm _] H.
  destruct (df_bills st) as [|r rest] eqn:Hdf;
    [unfold show_analysis in H; rewrite Hdf in H; discriminate|].
  rewrite (show_analysis_report st ranked r rest Hdf) in H.
  assert (Ht : top_list report = firstn 5 ranked).
  { symmetry.
    exact (f_equal (fun out => match out with
                               | [ConsumptionAnalysis a] => top_list a
                               | _ => []
                               end) H). }
  rewrite Ht; clear H Ht.
  assert (Hkeys : NoDup (map fst (groupby_name_units_sum (r :: rest)))).
  { rewrite groupby_names; apply sorted_names_nodup, group_keys_sorted. }
  split; [apply firstn_le_length|].
  split.
  { rewrite <- firstn_map; apply nodup_firstn.
    apply (Permutation_NoDup (Permutation_map fst Hperm)); exact Hkeys. }
  split.
  { intros g Hg; apply in_firstn in Hg.
    apply (Permutation_in _ (Permutation_sym Hperm)) in Hg.
    split; [exact Hg|].
    apply group_keys_in; rewrite <- groupby_names.
    apply in_map; exact Hg. }
  intros Hlen; rewrite firstn_all2; [exact Hperm|].
  rewrite <- (Permutation_length Hperm); exact Hlen.
Qed.

Lemma top_consumers_are_groups_witness :
  sort_values_desc (groupby_name_units_sum (df_bills three_bills_db))
    [(L "Ravi", 20%float); (L "Asha", 15%float)] /\
  NoDup (map fst [(L "Ravi", 20%float); (L "Asha", 15%float)]) /\
  Permutation (groupby_name_units_sum (df_bills three_bills_db))
    [(L "Ravi", 20%float); (L "Asha", 15%float)].
Proof.
  assert (Hs : sort_values_desc
                 (groupby_name_units_sum (df_bills three_bills_db))
                 [(L "Ravi", 20%float); (L "Asha", 15%float)]).
  { split; [apply perm_swap | repeat constructor]. }
  split; [exact Hs|].
  destruct (top_consumers_are_groups three_bills_db
              [(L "Ravi", 20%float); (L "Asha", 15%float)] _ Hs eq_refl)
    as (_ & Hn & _ & Hall).
  split; [exact Hn | apply Hall; simpl; lia].
Defined.

(** ** Removing a client hides its bills *)

Lemma has_client_after_delete (st : db) (id : Z) (b : bill) :
  has_client (delete_client st id) b
  = has_client st b && negb (sql_eqb (b_client_id b) (SqlInt id)).
Proof.
  unfold has_client, delete_client; simpl.
  destruct (sql_eqb (b_client_id b) (SqlInt id)) eqn:Hid; simpl.
  - rewrite andb_false_r.
    destruct (existsb _ (filter _ (clients st))) eqn:E; auto.
    apply existsb_exists in E; destruct E as (c & Hc & Hm).
    apply filter_In in Hc; destruct Hc as [_ Hne].
    apply negb_true_iff, Z.eqb_neq in Hne.
    exfalso; apply Hne; exact (sql_eqb_int_inj _ _ _ Hm Hid).
  - rewrite andb_true_r.
    induction (clients st) as [|c cs IH]; simpl; auto.
    destruct (Z.eqb_spec (c_id c) id) as [->|Hne]; simpl.
    + rewrite Hid; exact IH.
    + rewrite IH; reflexivity.
Qed.

Lemma filter_andb (A : Type) (f g : A -> bool) (l : list A) :
  filter (fun x => f x && g x) l = filter g (filter f l).
Proof.
  induction l as [|x l IH]; simpl; auto.
  destruct (f x); simpl; [destruct (g x); rewrite IH|]; auto.
Qed.

(** X18.  When [remove_client] deletes the client of an id, the bills stay in the
    bill table, but the bills with that client id are from then on missing
    from what [view_bills] and [show_analysis] read: the bills that the
    join keeps are those it kept before, less the ones of that id. *)
Theorem remove_client_hides_bills (st : db) (id : Z) (confirm : pystr) :
  In id (map c_id (clients st)) ->
  confirmed confirm = true ->
  bills (fst (remove_client st (Some id) confirm)) = bills st /\
  billed (fst (remove_client st (Some id) confirm))
  = filter (fun b => negb (sql_eqb (b_client_id b) (SqlInt id))) (billed st).
Proof.
  intros Hin Hy; unfold remove_client.
  destruct (select_client st id) as [c|] eqn:Hs.
  - rewrite Hy; simpl; split; [reflexivity|].
    unfold billed; simpl.
    rewrite <- filter_andb; apply filter_ext.
    intros b; apply has_client_after_delete.
  - apply select_client_none in Hs; contradiction.
Qed.

Lemma remove_client_hides_bills_witness :
  In 2%Z (map c_id (clients three_bills_db)) /\
  map b_id (billed three_bills_db) = [1; 2; 3]%Z /\
  map b_id (billed (fst (remove_client three_bills_db (Some 2%Z) (L "y"))))
  = [1; 3]%Z /\
  map b_id (bills (fst (remove_client three_bills_db (Some 2%Z) (L "y"))))
  = [1; 2; 3]%Z.
Proof.
  assert (Hin : In 2%Z (map c_id (clients three_bills_db)))
    by (simpl; auto).
  destruct (remove_client_hides_bills three_bills_db 2 (L "y") Hin eq_refl)
    as [Hb Hf].
  split; [exact Hin|]; split; [reflexivity|].
  rewrite Hf, Hb; split; reflexivity.
Defined.
